(** * Tensorforce: Gaussian distribution and policy-gradient agent

    A shallow embedding of

    - [tensorforce/core/distributions/gaussian.py] (class [Gaussian]) and
    - [tensorforce/rl_agents/pg_agent.py] (class [PGAgent]),

    with the properties of their specification stated and proved over it.

    Floating-point tensors are idealised: in [Gaussian] a tensor is the list
    of its elements in row-major order, each element a real number, and the
    elementwise TensorFlow operations are the corresponding operations on
    reals.  In [PGAgent] the numbers are only stored, stacked and compared,
    so rationals are used and everything computes. *)

From Stdlib Require Import List ZArith QArith Reals Lra Lia String Bool.
Import ListNotations.

(** ** Python results: a value or a raised exception *)

Inductive exn : Type :=
| TensorforceError_value
    (name : option string) (argument : string) (value : list Z) (hint : string)
| AssertionError
| AttributeError (attribute : string)
| IndexError
| ValueError (message : string)
| TypeError (message : string).

Inductive result (A : Type) : Type :=
| Ok (a : A)
| Raise (e : exn).

Arguments Ok {A} a.
Arguments Raise {A} e.

Definition bind {A B : Type} (r : result A) (k : A -> result B) : result B :=
  match r with
  | Ok a => k a
  | Raise e => Raise e
  end.

Notation "x <- r ;; k" := (bind r (fun x => k))
  (at level 61, r at next level, right associativity).

(** Python's [==] on tuples of integers. *)
Fixpoint tuple_eqb (s t : list Z) : bool :=
  match s, t with
  | [], [] => true
  | x :: s', y :: t' => Z.eqb x y && tuple_eqb s' t'
  | _, _ => false
  end.

(** * The Gaussian distribution *)

Module Gaussian.

Open Scope R_scope.
Open Scope string_scope.

(** A tensor: its elements in row-major order. *)
Definition tensor := list R.

(** [TensorSpec]: the fields of a specification that the class reads.  The
    bounds are scalars, broadcast over the action. *)
Record TensorSpec : Type := {
  type : string;
  shape : list Z;
  min_value : option R;
  max_value : option R
}.

(** [TensorDict(mean=..., stddev=..., log_stddev=...)]. *)
Record Parameters : Type := {
  mean : tensor;
  stddev : tensor;
  log_stddev : tensor
}.

(** A linear layer, as far as the distribution uses it: its [apply]. *)
Definition Linear := tensor -> tensor.

Record Gaussian : Type := {
  self_name : option string;
  action_spec : TensorSpec;
  input_spec : TensorSpec;
  mean_layer : Linear;
  log_stddev_layer : Linear
}.

(** *** Elementwise TensorFlow operations *)

Definition elementwise (f : R -> R -> R) (x y : tensor) : tensor :=
  map (fun p => f (fst p) (snd p)) (combine x y).

Definition t_add := elementwise Rplus.
Definition t_sub := elementwise Rminus.
Definition t_mul := elementwise Rmult.
Definition t_div := elementwise Rdiv.
Definition t_neg (x : tensor) : tensor := map Ropp x.
(** scalar constant [c * x], [x * c], [x + c], [x - c] (broadcast) *)
Definition s_mul (c : R) (x : tensor) : tensor := map (Rmult c) x.
Definition t_mul_s (x : tensor) (c : R) : tensor := map (fun v => v * c) x.
Definition t_add_s (x : tensor) (c : R) : tensor := map (fun v => v + c) x.
Definition t_sub_s (x : tensor) (c : R) : tensor := map (fun v => v - c) x.

Definition tf_square (x : tensor) : tensor := map (fun v => v * v) x.
Definition tf_exp (x : tensor) : tensor := map exp x.
(** [tf.maximum(x=c, y=t)] and [tf.maximum(x=t, y=c)], [c] a constant *)
Definition tf_maximum_l (c : R) (t : tensor) : tensor := map (Rmax c) t.
Definition tf_maximum_r (t : tensor) (c : R) : tensor :=
  map (fun v => Rmax v c) t.
Definition tf_minimum_l (c : R) (t : tensor) : tensor := map (Rmin c) t.
Definition tf_minimum_r (t : tensor) (c : R) : tensor :=
  map (fun v => Rmin v c) t.

(** [tf.clip_by_value]: the minimum with the upper bound is taken first,
    then the maximum with the lower bound. *)
Definition tf_clip_by_value (t : tensor) (clip_value_min clip_value_max : R)
  : tensor :=
  tf_maximum_r (tf_minimum_r t clip_value_max) clip_value_min.

(** [tf.reshape] leaves the row-major elements as they are. *)
Definition tf_reshape (t : tensor) (new_shape : list Z) : tensor := t.

(** The constants of the methods. *)
Definition half : R := 0.5.
Definition two : R := 2.0.
Definition pi_const : R := PI.
Definition e_const : R := exp 1.

Section Distribution.

(** What the class takes from the rest of the library. *)

(** The attribute [self.embedding_shape] as the base classes leave it on
    the object; [None] when the object has no such attribute.  The
    constructor's own arguments are [name], [action_spec] and [input_spec]. *)
Variable embedding_shape : option (list Z).

(** [util.product(xs=..., empty=...)]. *)
Variable util_product : list Z -> Z -> Z.

(** [self.submodule(name=..., module='linear', size=..., input_spec=...)]. *)
Variable submodule : string -> Z -> TensorSpec -> Linear.

(** [util.epsilon]. *)
Variable epsilon : R.

(** *** [Gaussian.__init__]

    The constructor of the base class, called before the shape tests, is
    not in the sources and is not part of the model; it accepts float
    specifications.  The properties below that speak of a successful
    construction or of the validation error are stated for a float
    [input_spec]. *)

Definition rank (spec : TensorSpec) : nat := List.length (shape spec).

Definition Gaussian_init (name : option string)
    (action_spec input_spec : TensorSpec) : result Gaussian :=
  if negb (String.eqb (type action_spec) "float") then Raise AssertionError
  else
    let build (size : Z) :=
      Ok {| self_name := name;
            action_spec := action_spec;
            input_spec := input_spec;
            mean_layer := submodule "mean" size input_spec;
            log_stddev_layer := submodule "log_stddev" size input_spec |} in
    if Nat.eqb (rank input_spec) 1 then
      (* Single embedding *)
      let action_size := util_product (shape action_spec) 0%Z in
      build action_size
    else
      (* Embedding per action *)
      if Nat.ltb (rank input_spec) 1 || Nat.ltb 3 (rank input_spec) then
        match embedding_shape with
        | None => Raise (AttributeError "embedding_shape")
        | Some v =>
            Raise (TensorforceError_value name "input_spec.shape" v
                     "invalid rank")
        end
      else if tuple_eqb (removelast (shape input_spec))
                        (removelast (shape action_spec)) then
        match rev (shape action_spec) with
        | [] => Raise IndexError
        | size :: _ => build size
        end
      else if tuple_eqb (removelast (shape input_spec)) (shape action_spec)
      then build 0%Z
      else
        Raise (TensorforceError_value name "input_spec.shape"
                 (shape input_spec)
                 "not flattened and incompatible with action shape").

(** *** [parametrize]

    The argument [conditions] is not read. *)

Definition parametrize (self : Gaussian) (x : tensor) : Parameters :=
  let log_epsilon := ln epsilon in
  let shape := (-1)%Z :: shape (action_spec self) in
  (* Mean *)
  let mean := mean_layer self x in
  let mean :=
    if Nat.eqb (rank (input_spec self)) 1 then tf_reshape mean shape
    else mean in
  (* Log standard deviation *)
  let log_stddev := log_stddev_layer self x in
  let log_stddev :=
    if Nat.eqb (rank (input_spec self)) 1 then tf_reshape log_stddev shape
    else log_stddev in
  (* Clip log_stddev for numerical stability *)
  let log_stddev := tf_clip_by_value log_stddev log_epsilon (- log_epsilon) in
  (* Standard deviation *)
  let stddev := tf_exp log_stddev in
  {| mean := mean; stddev := stddev; log_stddev := log_stddev |}.

(** *** [sample]

    [normal_distribution] is the draw of [tf.random.normal]; the summaries
    are telemetry and leave the action untouched. *)

Definition sample (self : Gaussian) (parameters : Parameters)
    (temperature : R) (normal_distribution : tensor) : tensor :=
  let mean := mean parameters in
  let stddev := stddev parameters in
  let action :=
    t_add mean (t_mul (t_mul_s stddev temperature) normal_distribution) in
  (* Clip if bounded action *)
  let action :=
    match min_value (action_spec self) with
    | Some lo => tf_maximum_l lo action
    | None => action
    end in
  let action :=
    match max_value (action_spec self) with
    | Some hi => tf_minimum_l hi action
    | None => action
    end in
  action.

(** The clipping step of [sample] on its own. *)
Definition clip_to_bounds (spec : TensorSpec) (action : tensor) : tensor :=
  let action :=
    match min_value spec with
    | Some lo => tf_maximum_l lo action
    | None => action
    end in
  match max_value spec with
  | Some hi => tf_minimum_l hi action
  | None => action
  end.

(** *** [log_probability], [entropy], [kl_divergence], [states_value],
        [action_value] *)

Definition log_probability (parameters : Parameters) (action : tensor)
  : tensor :=
  let mean := mean parameters in
  let stddev := stddev parameters in
  let log_stddev := log_stddev parameters in
  let sq_mean_distance := tf_square (t_sub action mean) in
  let sq_stddev := tf_maximum_r (tf_square stddev) epsilon in
  t_sub_s
    (t_sub (t_div (s_mul (- half) sq_mean_distance) sq_stddev) log_stddev)
    (half * ln (two * pi_const)).

Definition entropy (parameters : Parameters) : tensor :=
  let log_stddev := log_stddev parameters in
  t_add_s log_stddev (half * ln (two * pi_const * e_const)).

Definition kl_divergence (parameters1 parameters2 : Parameters) : tensor :=
  let mean1 := mean parameters1 in
  let stddev1 := stddev parameters1 in
  let log_stddev1 := log_stddev parameters1 in
  let mean2 := mean parameters2 in
  let stddev2 := stddev parameters2 in
  let log_stddev2 := log_stddev parameters2 in
  let log_stddev_ratio := t_sub log_stddev2 log_stddev1 in
  let sq_mean_distance := tf_square (t_sub mean1 mean2) in
  let sq_stddev1 := tf_square stddev1 in
  let sq_stddev2 := tf_maximum_r (tf_square stddev2) epsilon in
  t_sub_s
    (t_add log_stddev_ratio
       (t_div (s_mul half (t_add sq_stddev1 sq_mean_distance)) sq_stddev2))
    half.

Definition states_value (parameters : Parameters) : tensor :=
  let log_stddev := log_stddev parameters in
  t_sub_s (t_neg log_stddev) (half * ln (two * pi_const)).

Definition action_value (parameters : Parameters) (action : tensor)
  : tensor :=
  let mean := mean parameters in
  let stddev := stddev parameters in
  let log_stddev := log_stddev parameters in
  let sq_mean_distance := tf_square (t_sub action mean) in
  let sq_stddev := tf_maximum_r (tf_square stddev) epsilon in
  t_sub_s
    (t_sub (t_div (s_mul (- half) sq_mean_distance) sq_stddev)
       (s_mul two log_stddev))
    (ln (two * pi_const)).

(** A valid parameter set: the three tensors have the action's shape,
    [stddev] is the exponential of [log_stddev], and [log_stddev] lies in the
    clamp interval. *)
Definition valid_parameters (p : Parameters) : Prop :=
  List.length (stddev p) = List.length (mean p) /\
  List.length (log_stddev p) = List.length (mean p) /\
  stddev p = tf_exp (log_stddev p) /\
  Forall (fun l => ln epsilon <= l <= - ln epsilon) (log_stddev p).

End Distribution.

(** Modelled from the spec: the value of [util.epsilon], which is not part
    of the sources; the specification gives it as a small positive numerical
    floor, 1e-6.  The methods above take [epsilon] as a parameter; this value
    instantiates it in the examples. *)
Definition util_epsilon : R := / 1000000.

(** The action of [sample] before the bounds are applied. *)
Definition unclipped_action (parameters : Parameters) (temperature : R)
    (normal_distribution : tensor) : tensor :=
  t_add (mean parameters)
    (t_mul (t_mul_s (stddev parameters) temperature) normal_distribution).

(** ** Example values *)

Definition unit_layer : Linear := fun x => x.

Definition example_gaussian : Gaussian :=
  {| self_name := None;
     action_spec := {| type := "float"; shape := [2%Z];
                       min_value := Some (-1); max_value := Some 1 |};
     input_spec := {| type := "float"; shape := [2%Z];
                      min_value := None; max_value := None |};
     mean_layer := unit_layer;
     log_stddev_layer := unit_layer |}.

Definition example_parameters : Parameters :=
  {| mean := [0.5; -3]; stddev := [1; 2]; log_stddev := [0; ln 2] |}.

(** The valid parameter set whose log-stddev sits on the lower clamp bound:
    [stddev = exp(ln epsilon) = epsilon]. *)
Definition floor_parameters : Parameters :=
  {| mean := [0];
     stddev := [exp (ln util_epsilon)];
     log_stddev := [ln util_epsilon] |}.

Definition unit_stddev_parameters : Parameters :=
  {| mean := [3; -7]; stddev := [exp 0; exp 0]; log_stddev := [0; 0] |}.

Definition float_spec (dims : list Z) : TensorSpec :=
  {| type := "float"; shape := dims; min_value := None; max_value := None |}.

Definition wide_parameters : Parameters :=
  {| mean := [0; 0]; stddev := [exp 1; exp 1]; log_stddev := [1; 1] |}.

(** The example distribution with a lower bound only. *)
Definition floored_gaussian : Gaussian :=
  {| self_name := None;
     action_spec := {| type := "float"; shape := [2%Z];
                       min_value := Some 0; max_value := None |};
     input_spec := input_spec example_gaussian;
     mean_layer := unit_layer;
     log_stddev_layer := unit_layer |}.

Definition small_parameters : Parameters :=
  {| mean := [0.5; -0.25]; stddev := [1; 1]; log_stddev := [0; 0] |}.

End Gaussian.

(** * The policy-gradient agent *)

Module PGAgent.

Open Scope string_scope.
Open Scope list_scope.
Open Scope Z_scope.

(** ** The part of numpy the agent calls

    An array is its shape and its elements in row-major order.  An element is
    a number, or the object [None] (an array of dtype [object]). *)

Inductive scalar : Type :=
| SNum (q : Q)
| SNone.

Record ndarray : Type := NDArray {
  shape : list nat;
  data : list scalar
}.

(** The Python values the caller and the updater hand to the agent. *)
Inductive pyobj : Type :=
| PyNone
| PyInt (z : Z)
| PyFloat (q : Q)
| PyArray (a : ndarray).

(** [np.asarray] of one value. *)
Definition asarray (o : pyobj) : ndarray :=
  match o with
  | PyNone => NDArray [] [SNone]
  | PyInt z => NDArray [] [SNum (inject_Z z)]
  | PyFloat q => NDArray [] [SNum q]
  | PyArray a => a
  end.

Fixpoint shape_eqb (s t : list nat) : bool :=
  match s, t with
  | [], [] => true
  | x :: s', y :: t' => Nat.eqb x y && shape_eqb s' t'
  | _, _ => false
  end.

(** [np.array(xs)] of a Python list: the elements are stacked along a new
    leading axis; elements of different shapes are rejected. *)
Definition np_array (xs : list pyobj) : result ndarray :=
  match map asarray xs with
  | [] => Ok (NDArray [0%nat] [])
  | a :: rest =>
      if forallb (fun b => shape_eqb (shape b) (shape a)) rest
      then Ok (NDArray (List.length xs :: shape a)
                 (List.concat (map data (a :: rest))))
      else Raise (ValueError "inhomogeneous shape")
  end.

(** [np.expand_dims(a, 0)]. *)
Definition np_expand_dims0 (a : ndarray) : ndarray :=
  NDArray (1%nat :: shape a) (data a).

Fixpoint chunks (size count : nat) (d : list scalar) : list (list scalar) :=
  match count with
  | O => []
  | S count' => firstn size d :: chunks size count' (skipn size d)
  end.

(** Iterating over an array yields its sub-arrays along the first axis. *)
Definition rows (a : ndarray) : list ndarray :=
  match shape a with
  | [] => []
  | n :: s => map (NDArray s) (chunks (fold_right Nat.mul 1%nat s) n (data a))
  end.

(** [np.concatenate(arrays)] along axis 0: at least one array, none of them
    zero-dimensional, all of the same shape after the first axis. *)
Fixpoint concatenate_rest (tail : list nat) (arrays : list ndarray)
  : result (nat * list scalar) :=
  match arrays with
  | [] => Ok (0%nat, [])
  | b :: arrays' =>
      match shape b with
      | [] => Raise (ValueError "zero-dimensional arrays cannot be concatenated")
      | m :: tail' =>
          if shape_eqb tail' tail then
            r <- concatenate_rest tail arrays' ;;
            Ok ((m + fst r)%nat, data b ++ snd r)
          else Raise (ValueError "array dimensions must match exactly")
      end
  end.

Definition np_concatenate (arrays : list ndarray) : result ndarray :=
  match arrays with
  | [] => Raise (ValueError "need at least one array to concatenate")
  | a :: _ =>
      match shape a with
      | [] => Raise (ValueError "zero-dimensional arrays cannot be concatenated")
      | _ :: tail =>
          r <- concatenate_rest tail arrays ;;
          Ok (NDArray (fst r :: tail) (snd r))
      end
  end.

(** [np.argmax(a)]: the first index of the largest element of the flattened
    array; comparing with [None] is a type error. *)
Fixpoint argmax_from (best : Q) (best_index index : Z) (d : list scalar)
  : result Z :=
  match d with
  | [] => Ok best_index
  | SNum v :: d' =>
      if Qle_bool v best then argmax_from best best_index (index + 1) d'
      else argmax_from v index (index + 1) d'
  | SNone :: _ => Raise (TypeError "'>' not supported for NoneType")
  end.

Definition np_argmax (o : pyobj) : result Z :=
  match data (asarray o) with
  | [] => Raise (ValueError "attempt to get argmax of an empty sequence")
  | [_] => Ok 0
  | SNum v :: d => argmax_from v 0 1 d
  | SNone :: _ => Raise (TypeError "'>' not supported for NoneType")
  end.

(** ** The agent's data *)

(** [current_episode]: a [defaultdict(list)]; a key that was never written
    reads as the empty list.  [terminated] is the one key that holds a
    boolean; [None] stands for the key being absent. *)
Record episode : Type := {
  states : list pyobj;
  actions : list pyobj;
  rewards : list pyobj;
  action_means : list pyobj;
  action_log_stds : list pyobj;
  terminated : option bool
}.

Definition empty_episode : episode :=
  {| states := []; actions := []; rewards := [];
     action_means := []; action_log_stds := []; terminated := None |}.

(** The path record that [get_path] builds. *)
Record path : Type := {
  path_states : ndarray;
  path_actions : ndarray;
  path_terminated : option bool;
  path_action_means : ndarray;
  path_action_log_stds : ndarray;
  path_rewards : ndarray
}.

Record Config : Type := {
  config_batch_size : Z;
  config_deterministic_mode : bool;
  config_continuous : bool
}.

(** The updater is a collaborator; the agent only holds it. *)
Record Updater : Type := { updater_config : Config }.

Record agent : Type := {
  config : Config;
  updater : option Updater;
  current_batch : list path;
  current_episode : episode;
  batch_steps : Z;
  batch_size : Z;
  last_action : pyobj;
  last_action_means : pyobj;
  last_action_log_stds : pyobj;
  continuous : bool
}.

(** [PGAgent.__init__]; [value_function_ref] is the class attribute that
    subclasses set ([None] in [PGAgent] itself). *)
Definition PGAgent_init (value_function_ref : option (Config -> Updater))
    (cfg : Config) : agent :=
  {| config := cfg;
     updater :=
       match value_function_ref with
       | Some make => Some (make cfg)
       | None => None
       end;
     current_batch := [];
     current_episode := empty_episode;
     batch_steps := 0;
     batch_size := config_batch_size cfg;
     last_action := PyNone;
     last_action_means := PyNone;
     last_action_log_stds := PyNone;
     continuous := config_continuous cfg |}.

(** Assignments to the attributes that the methods write. *)
Definition set_cache (self : agent) (action means log_stds : pyobj) : agent :=
  {| config := config self; updater := updater self;
     current_batch := current_batch self;
     current_episode := current_episode self;
     batch_steps := batch_steps self; batch_size := batch_size self;
     last_action := action;
     last_action_means := means;
     last_action_log_stds := log_stds;
     continuous := continuous self |}.

Definition set_buffers (self : agent) (batch : list path) (ep : episode)
    (steps : Z) : agent :=
  {| config := config self; updater := updater self;
     current_batch := batch;
     current_episode := ep;
     batch_steps := steps; batch_size := batch_size self;
     last_action := last_action self;
     last_action_means := last_action_means self;
     last_action_log_stds := last_action_log_stds self;
     continuous := continuous self |}.

Definition set_terminated (ep : episode) (flag : bool) : episode :=
  {| states := states ep; actions := actions ep; rewards := rewards ep;
     action_means := action_means ep;
     action_log_stds := action_log_stds ep;
     terminated := Some flag |}.

(** ** [get_action]

    [updater_get_action] is what [self.updater.get_action] returned: the
    action and the outputs [action_means] and [action_log_stds]. *)
Record outputs : Type := {
  out_action_means : pyobj;
  out_action_log_stds : pyobj
}.

Definition get_action (self : agent) (updater_get_action : pyobj * outputs)
  : result (agent * pyobj) :=
  match updater self with
  | None => Raise (AttributeError "get_action")
  | Some _ =>
      let (action, outs) := updater_get_action in
      (* Cache last action in case action is used multiple times *)
      let self := set_cache self action (out_action_means outs)
                    (out_action_log_stds outs) in
      if negb (continuous self) then
        i <- np_argmax action ;;
        Ok (self, PyInt i)
      else Ok (self, action)
  end.

(** ** [get_path] *)
Definition get_path (ep : episode) : result path :=
  stacked <- np_array (states ep) ;;
  st <- np_concatenate (rows (np_expand_dims0 stacked)) ;;
  ac <- np_array (actions ep) ;;
  am <- np_concatenate (map asarray (action_means ep)) ;;
  al <- np_concatenate (map asarray (action_log_stds ep)) ;;
  rw <- np_array (rewards ep) ;;
  Ok {| path_states := st;
        path_actions := ac;
        path_terminated := terminated ep;
        path_action_means := am;
        path_action_log_stds := al;
        path_rewards := rw |}.

(** ** [add_observation]

    The result is the agent afterwards together with the batches handed to
    [self.updater.update] during the call, in order.  [deepcopy] is the
    identity on values. *)
Definition deepcopy (batch : list path) : list path := batch.

Definition append_step (self : agent) (state reward : pyobj) : episode :=
  let ep := current_episode self in
  {| states := states ep ++ [state];
     actions := actions ep ++ [last_action self];
     rewards := rewards ep ++ [reward];
     action_means := action_means ep ++ [last_action_means self];
     action_log_stds := action_log_stds ep ++ [last_action_log_stds self];
     terminated := terminated ep |}.

Definition add_observation (self : agent) (state action reward : pyobj)
    (terminal : bool) : result (agent * list (list path)) :=
  let self :=
    set_buffers self (current_batch self) (append_step self state reward)
      (batch_steps self + 1) in
  self <-
    (if terminal then
       (* Batch could also end before episode is terminated *)
       let ep := set_terminated (current_episode self) true in
       p <- get_path ep ;;
       Ok (set_buffers self (current_batch self ++ [p]) empty_episode
             (batch_steps self))
     else Ok self) ;;
  if batch_steps self =? batch_size self then
    self <-
      (if negb terminal then
         let ep := set_terminated (current_episode self) false in
         p <- get_path ep ;;
         Ok (set_buffers self (current_batch self ++ [p]) ep
               (batch_steps self))
       else Ok self) ;;
    match updater self with
    | None => Raise (AttributeError "update")
    | Some _ =>
        let handed := deepcopy (current_batch self) in
        Ok (set_buffers self [] empty_episode 0, [handed])
    end
  else Ok (self, []).

(** ** A run of the agent: the calls of the environment loop, in order. *)
Inductive call : Type :=
| GetAction (updater_get_action : pyobj * outputs)
| AddObservation (state action reward : pyobj) (terminal : bool).

Definition do_call (self : agent) (c : call)
  : result (agent * list (list path)) :=
  match c with
  | GetAction r =>
      sa <- get_action self r ;;
      Ok (fst sa, [])
  | AddObservation state action reward terminal =>
      add_observation self state action reward terminal
  end.

Fixpoint run (self : agent) (calls : list call)
  : result (agent * list (list path)) :=
  match calls with
  | [] => Ok (self, [])
  | c :: calls' =>
      r <- do_call self c ;;
      r' <- run (fst r) calls' ;;
      Ok (fst r', snd r ++ snd r')
  end.

(** ** Vocabulary of the properties *)

(** The length of an array along its first axis. *)
Definition leading (a : ndarray) : option nat :=
  match shape a with
  | [] => None
  | n :: _ => Some n
  end.

(** Every value of the list is an array of shape [s]. *)
Definition uniform (s : list nat) (xs : list pyobj) : Prop :=
  Forall (fun x => shape (asarray x) = s) xs.

(** The shapes of what one step contributes.  The means and log-stddevs of
    one step come from the updater with a batch axis of length 1 in front;
    [means_shape] and [log_stds_shape] are what follows that axis. *)
Record step_shapes : Type := {
  state_shape : list nat;
  action_shape : list nat;
  reward_shape : list nat;
  means_shape : list nat;
  log_stds_shape : list nat
}.

Definition obs_wf (sh : step_shapes)
    (cached_action cached_means cached_log_stds state reward : pyobj) : Prop :=
  shape (asarray state) = state_shape sh /\
  shape (asarray cached_action) = action_shape sh /\
  shape (asarray reward) = reward_shape sh /\
  shape (asarray cached_means) = 1%nat :: means_shape sh /\
  shape (asarray cached_log_stds) = 1%nat :: log_stds_shape sh.

(** The observation fits the episode, given the agent's cached action. *)
Definition step_wf (sh : step_shapes) (self : agent) (state reward : pyobj)
  : Prop :=
  obs_wf sh (last_action self) (last_action_means self)
    (last_action_log_stds self) state reward.

(** The episode buffer holds one entry per step in each of its lists, all
    of the shapes [sh]. *)
Definition episode_wf (sh : step_shapes) (ep : episode) : Prop :=
  uniform (state_shape sh) (states ep) /\
  uniform (action_shape sh) (actions ep) /\
  uniform (reward_shape sh) (rewards ep) /\
  uniform (1%nat :: means_shape sh) (action_means ep) /\
  uniform (1%nat :: log_stds_shape sh) (action_log_stds ep) /\
  List.length (actions ep) = List.length (states ep) /\
  List.length (rewards ep) = List.length (states ep) /\
  List.length (action_means ep) = List.length (states ep) /\
  List.length (action_log_stds ep) = List.length (states ep).

(** The number of steps recorded in an episode buffer. *)
Definition episode_steps (ep : episode) : nat := List.length (states ep).

(** A fresh agent, or an agent just after a flush. *)
Definition flushed (self : agent) : Prop :=
  batch_steps self = 0 /\
  current_episode self = empty_episode /\
  current_batch self = [].

Fixpoint count_observations (calls : list call) : nat :=
  match calls with
  | [] => 0%nat
  | GetAction _ :: calls' => count_observations calls'
  | AddObservation _ _ _ _ :: calls' => S (count_observations calls')
  end.

(** A sequence of calls in which every observation is non-terminal and fits
    the shapes [sh] with the action cached at that point, and every
    [get_action] can return. *)
Fixpoint nonterminal_calls_wf (sh : step_shapes) (is_continuous : bool)
    (cached_action cached_means cached_log_stds : pyobj) (calls : list call)
  : Prop :=
  match calls with
  | [] => True
  | GetAction (action, outs) :: calls' =>
      (is_continuous = true \/ exists i, np_argmax action = Ok i) /\
      nonterminal_calls_wf sh is_continuous action (out_action_means outs)
        (out_action_log_stds outs) calls'
  | AddObservation state _ reward terminal :: calls' =>
      terminal = false /\
      obs_wf sh cached_action cached_means cached_log_stds state reward /\
      nonterminal_calls_wf sh is_continuous cached_action cached_means
        cached_log_stds calls'
  end.

(** ** Example values *)

Definition vector (xs : list Q) : pyobj :=
  PyArray (NDArray [List.length xs] (map SNum xs)).

(** One row with a batch axis of length 1 in front. *)
Definition batch_row (xs : list Q) : pyobj :=
  PyArray (NDArray [1%nat; List.length xs] (map SNum xs)).

Definition example_config (n : Z) : Config :=
  {| config_batch_size := n;
     config_deterministic_mode := false;
     config_continuous := true |}.

Definition example_updater (cfg : Config) : Updater :=
  {| updater_config := cfg |}.

Definition example_agent (n : Z) : agent :=
  PGAgent_init (Some example_updater) (example_config n).

Definition example_policy_output : pyobj * outputs :=
  (vector [1 # 2; 1 # 3]%Q,
   {| out_action_means := batch_row [0; 1]%Q;
      out_action_log_stds := batch_row [0; 0]%Q |}).

(** The example agent once [get_action] has cached an action. *)
Definition acting_agent (n : Z) : agent :=
  set_cache (example_agent n) (fst example_policy_output)
    (out_action_means (snd example_policy_output))
    (out_action_log_stds (snd example_policy_output)).

Definition example_state : pyobj := vector [1; 2; 3]%Q.
Definition example_reward : pyobj := PyFloat 1.

Definition example_shapes : step_shapes :=
  {| state_shape := [3%nat];
     action_shape := [2%nat];
     reward_shape := [];
     means_shape := [2%nat];
     log_stds_shape := [2%nat] |}.

Definition example_get_action : call := GetAction example_policy_output.

Definition example_observation (terminal : bool) : call :=
  AddObservation example_state PyNone example_reward terminal.

(** Three environment steps, none of them terminal. *)
Definition three_steps : list call :=
  [example_get_action; example_observation false;
   example_get_action; example_observation false;
   example_get_action; example_observation false].

(** Two episodes: a terminal step, then one more step. *)
Definition two_episodes : list call :=
  [example_get_action; example_observation true;
   example_get_action; example_observation false].

Definition agent_after (self : agent) (calls : list call) : agent :=
  match run self calls with
  | Ok r => fst r
  | Raise _ => self
  end.

Definition updates_during (self : agent) (calls : list call)
  : list (list path) :=
  match run self calls with
  | Ok r => snd r
  | Raise _ => []
  end.

(** ** Further vocabulary *)

(** The length of the first axis of a value seen as an array; 0 for a
    zero-dimensional one. *)
Definition batch_length (x : pyobj) : nat :=
  match shape (asarray x) with
  | [] => 0%nat
  | n :: _ => n
  end.

Definition batch_lengths (xs : list pyobj) : nat :=
  fold_right (fun x n => (batch_length x + n)%nat) 0%nat xs.

(** The number of steps of a path: the leading length of its states. *)
Definition path_steps (p : path) : nat :=
  match leading (path_states p) with
  | Some n => n
  | None => 0%nat
  end.

Definition steps_in (batch : list path) : nat :=
  fold_right (fun p n => (path_steps p + n)%nat) 0%nat batch.

(** The five lists of an episode buffer have one entry per step. *)
Definition aligned (ep : episode) : Prop :=
  List.length (actions ep) = List.length (states ep) /\
  List.length (rewards ep) = List.length (states ep) /\
  List.length (action_means ep) = List.length (states ep) /\
  List.length (action_log_stds ep) = List.length (states ep).

(** The elements of a list of values, step after step. *)
Definition elements (xs : list pyobj) : list scalar :=
  List.concat (map (fun x => data (asarray x)) xs).

(** A sequence of calls in which every observation, terminal or not, fits
    the shapes [sh] with the action cached at that point, and every
    [get_action] can return. *)
Fixpoint calls_wf (sh : step_shapes) (is_continuous : bool)
    (cached_action cached_means cached_log_stds : pyobj) (calls : list call)
  : Prop :=
  match calls with
  | [] => True
  | GetAction (action, outs) :: calls' =>
      (is_continuous = true \/ exists i, np_argmax action = Ok i) /\
      calls_wf sh is_continuous action (out_action_means outs)
        (out_action_log_stds outs) calls'
  | AddObservation state _ reward _ :: calls' =>
      obs_wf sh cached_action cached_means cached_log_stds state reward /\
      calls_wf sh is_continuous cached_action cached_means
        cached_log_stds calls'
  end.

Definition is_observation (c : call) : Prop :=
  match c with
  | GetAction _ => False
  | AddObservation _ _ _ _ => True
  end.

(** The call with the action argument of an observation replaced. *)
Definition with_action (a : pyobj) (c : call) : call :=
  match c with
  | GetAction r => GetAction r
  | AddObservation state _ reward terminal =>
      AddObservation state a reward terminal
  end.

(** Four steps in two episodes, the batch filling up on the third. *)
Definition four_steps : list call :=
  [example_get_action; example_observation true;
   example_get_action; example_observation false;
   example_get_action; example_observation false;
   example_get_action; example_observation false].

(** The counter accounts for the steps in the two buffers, the episode
    buffer is aligned, and the paths waiting in the batch buffer are
    finished episodes with at least one step. *)
Definition buffers_consistent (self : agent) : Prop :=
  batch_steps self
  = Z.of_nat (steps_in (current_batch self)
              + episode_steps (current_episode self)) /\
  aligned (current_episode self) /\
  Forall (fun p => path_terminated p = Some true /\ (1 <= path_steps p)%nat)
    (current_batch self).

(** What a batch handed to the updater looks like for a batch size. *)
Definition batch_complete (size : Z) (batch : list path) : Prop :=
  Z.of_nat (steps_in batch) = size /\
  batch <> [] /\
  Forall (fun p => (1 <= path_steps p)%nat) batch /\
  Forall (fun p => path_terminated p = Some true) (removelast batch).

Definition empty_array : ndarray := NDArray [] [].

Definition path_or_empty (r : result path) : path :=
  match r with
  | Ok p => p
  | Raise _ =>
      {| path_states := empty_array; path_actions := empty_array;
         path_terminated := None; path_action_means := empty_array;
         path_action_log_stds := empty_array; path_rewards := empty_array |}
  end.

(** One recorded step whose means and log-stddevs carry a batch axis of
    length 2. *)
Definition double_batch_episode : episode :=
  {| states := [example_state];
     actions := [vector [1 # 2; 1 # 3]%Q];
     rewards := [example_reward];
     action_means :=
       [PyArray (NDArray [2%nat; 2%nat] (map SNum [0; 1; 2; 3]%Q))];
     action_log_stds :=
       [PyArray (NDArray [2%nat; 2%nat] (map SNum [0; 0; 0; 0]%Q))];
     terminated := Some true |}.

(** What the updater returns when its means and log-stddevs carry a batch
    axis of length 2. *)
Definition double_batch_output : pyobj * outputs :=
  (vector [1 # 2; 1 # 3]%Q,
   {| out_action_means :=
        PyArray (NDArray [2%nat; 2%nat] (map SNum [0; 1; 2; 3]%Q));
      out_action_log_stds :=
        PyArray (NDArray [2%nat; 2%nat] (map SNum [0; 0; 0; 0]%Q)) |}).

(** The fresh agent with [batch_size = 5] once [get_action] has cached
    that output. *)
Definition double_batch_agent : agent :=
  set_cache (example_agent 5) (fst double_batch_output)
    (out_action_means (snd double_batch_output))
    (out_action_log_stds (snd double_batch_output)).

End PGAgent.

(** * Properties of the Gaussian distribution *)

Module GaussianTheory.

Import Gaussian.
Open Scope R_scope.

Lemma tuple_eqb_eq (s t : list Z) : tuple_eqb s t = true <-> s = t.
Proof.
  revert t; induction s as [|x s IH]; intros [|y t]; simpl;
    try (split; [discriminate | congruence]); try tauto.
  rewrite andb_true_iff, Z.eqb_eq, IH.
  split; [intros [-> ->]; reflexivity | intros H; inversion H; auto].
Qed.

Lemma ln_epsilon_nonpos (epsilon : R) : 0 < epsilon < 1 -> ln epsilon < 0.
Proof.
  intros [Hpos Hlt]. rewrite <- ln_1. apply ln_increasing; assumption.
Qed.

Lemma util_epsilon_small : 0 < util_epsilon < 1.
Proof. unfold util_epsilon; lra. Qed.

(** One element through the clamp. *)
Lemma clip_in_range (lo hi v : R) :
  lo <= hi -> lo <= Rmax (Rmin v hi) lo <= hi.
Proof.
  intros Hle. split.
  - apply Rmax_r.
  - apply Rmax_lub; [apply Rmin_r | exact Hle].
Qed.

Lemma tf_clip_by_value_in_range (t : tensor) (lo hi : R) :
  lo <= hi -> Forall (fun v => lo <= v <= hi) (tf_clip_by_value t lo hi).
Proof.
  intros Hle. unfold tf_clip_by_value, tf_maximum_r, tf_minimum_r.
  rewrite map_map. apply Forall_forall. intros v Hin.
  apply in_map_iff in Hin. destruct Hin as [u [<- _]].
  apply clip_in_range; exact Hle.
Qed.

(** C3: for every embedding [x], [parametrize] returns
    [stddev = exp(log_stddev)] elementwise with every element of
    [log_stddev] in [[ln epsilon, - ln epsilon]]; the clamp is applied to
    the output of the log-stddev layer before the exponential is taken. *)
Theorem parametrize_clamps_log_stddev
    (epsilon : R) (self : Gaussian) (x : tensor) :
  0 < epsilon < 1 ->
  let p := parametrize epsilon self x in
  stddev p = tf_exp (log_stddev p) /\
  Forall (fun l => ln epsilon <= l <= - ln epsilon) (log_stddev p) /\
  log_stddev p =
    tf_clip_by_value (log_stddev_layer self x) (ln epsilon) (- ln epsilon).
Proof.
  intros Heps p. subst p. unfold parametrize; simpl.
  assert (Hneg : ln epsilon < 0) by (apply ln_epsilon_nonpos; exact Heps).
  destruct (Nat.eqb (rank (input_spec self)) 1); unfold tf_reshape;
    (split; [reflexivity | split; [|reflexivity]]);
    apply tf_clip_by_value_in_range; lra.
Qed.

Lemma parametrize_clamps_log_stddev_witness :
  0 < util_epsilon < 1 /\
  let p := parametrize util_epsilon example_gaussian [100; -100] in
  stddev p = tf_exp (log_stddev p) /\
  Forall (fun l => ln util_epsilon <= l <= - ln util_epsilon) (log_stddev p) /\
  log_stddev p =
    tf_clip_by_value (log_stddev_layer example_gaussian [100; -100])
      (ln util_epsilon) (- ln util_epsilon).
Proof.
  split.
  - exact util_epsilon_small.
  - apply (parametrize_clamps_log_stddev util_epsilon example_gaussian
             [100; -100]).
    exact util_epsilon_small.
Defined.

(** ** Elementwise reasoning *)

Lemma elementwise_cons (f : R -> R -> R) (a b : R) (x y : tensor) :
  elementwise f (a :: x) (b :: y) = f a b :: elementwise f x y.
Proof. reflexivity. Qed.

Lemma elementwise_nil_r (f : R -> R -> R) (x : tensor) :
  elementwise f x [] = [].
Proof. destruct x; reflexivity. Qed.

(** C9: for every parameter set and action, [action_value] is the
    elementwise sum of [log_probability] and [states_value]. *)
Theorem action_value_is_log_probability_plus_states_value
    (epsilon : R) (p : Parameters) (action : tensor) :
  action_value epsilon p action =
  t_add (log_probability epsilon p action) (states_value p).
Proof.
  destruct p as [m s l].
  unfold action_value, log_probability, states_value; simpl.
  unfold t_add, t_sub, t_div, t_sub_s, t_neg, s_mul, tf_square, tf_maximum_r,
    elementwise.
  revert m s l.
  induction action as [|a action IH]; intros m s l.
  - reflexivity.
  - destruct m as [|m0 m]; [reflexivity|].
    destruct s as [|s0 s]; [reflexivity|].
    destruct l as [|l0 l].
    + reflexivity.
    + simpl. f_equal; [unfold half, two; lra | apply IH].
Qed.

(** ** Sampling *)

Lemma clip_to_bounds_within (spec : TensorSpec) (lo hi : R) (t : tensor) :
  min_value spec = Some lo -> max_value spec = Some hi -> lo <= hi ->
  Forall (fun a => lo <= a <= hi) (clip_to_bounds spec t).
Proof.
  intros Hmin Hmax Hle. unfold clip_to_bounds. rewrite Hmin, Hmax.
  unfold tf_minimum_l, tf_maximum_l. rewrite map_map.
  apply Forall_forall. intros v Hin.
  apply in_map_iff in Hin. destruct Hin as [u [<- _]].
  split.
  - apply Rmin_glb; [exact Hle | apply Rmax_l].
  - apply Rmin_l.
Qed.

(** C6: with bounds [lo <= hi] declared, every element of the sampled action
    lies in [[lo, hi]], and the action is the clip of
    [mean + stddev * temperature * noise]: the noise is added first. *)
Theorem sample_within_bounds
    (self : Gaussian) (p : Parameters) (temperature : R) (noise : tensor)
    (lo hi : R) :
  min_value (action_spec self) = Some lo ->
  max_value (action_spec self) = Some hi ->
  lo <= hi ->
  Forall (fun a => lo <= a <= hi) (sample self p temperature noise) /\
  sample self p temperature noise =
    tf_minimum_l hi
      (tf_maximum_l lo
         (t_add (mean p) (t_mul (t_mul_s (stddev p) temperature) noise))).
Proof.
  intros Hmin Hmax Hle. split.
  - apply (clip_to_bounds_within (action_spec self) lo hi); assumption.
  - unfold sample. rewrite Hmin, Hmax. reflexivity.
Qed.

Lemma sample_within_bounds_witness :
  Forall (fun a => -1 <= a <= 1)
    (sample example_gaussian example_parameters 2 [10; 0.25]) /\
  sample example_gaussian example_parameters 2 [10; 0.25] =
    tf_minimum_l 1
      (tf_maximum_l (-1)
         (t_add (mean example_parameters)
            (t_mul (t_mul_s (stddev example_parameters) 2) [10; 0.25]))).
Proof.
  apply (sample_within_bounds example_gaussian example_parameters 2
           [10; 0.25] (-1) 1).
  - reflexivity.
  - reflexivity.
  - lra.
Defined.

Lemma zero_temperature_noise (m s noise : tensor) :
  List.length s = List.length m ->
  List.length noise = List.length m ->
  t_add m (t_mul (t_mul_s s 0) noise) = m.
Proof.
  unfold t_add, t_mul, t_mul_s.
  revert s noise. induction m as [|m0 m IH]; intros s noise Hs Hn.
  - reflexivity.
  - destruct s as [|s0 s]; [discriminate|].
    destruct noise as [|n0 noise]; [discriminate|].
    simpl. rewrite !elementwise_cons. simpl.
    injection Hs as Hs. injection Hn as Hn.
    f_equal; [lra | apply IH; assumption].
Qed.

(** C7: at temperature 0 the sampled action is the mean, clipped to the
    declared bounds, whatever the noise draw.  (A valid parameter set has
    [stddev] of the shape of [mean], and the noise is drawn with the shape
    of [mean].) *)
Theorem sample_zero_temperature_is_mean
    (self : Gaussian) (p : Parameters) (noise : tensor) :
  List.length (stddev p) = List.length (mean p) ->
  List.length noise = List.length (mean p) ->
  sample self p 0 noise = clip_to_bounds (action_spec self) (mean p).
Proof.
  intros Hs Hn.
  change (sample self p 0 noise)
    with (clip_to_bounds (action_spec self)
            (t_add (mean p) (t_mul (t_mul_s (stddev p) 0) noise))).
  rewrite zero_temperature_noise by assumption. reflexivity.
Qed.

Lemma sample_zero_temperature_is_mean_witness :
  sample example_gaussian example_parameters 0 [10; 0.25] =
  clip_to_bounds (action_spec example_gaussian) (mean example_parameters).
Proof.
  apply (sample_zero_temperature_is_mean example_gaussian example_parameters
           [10; 0.25]); reflexivity.
Defined.

(** ** KL divergence of a parameter set from itself *)

Lemma floor_parameters_valid : valid_parameters util_epsilon floor_parameters.
Proof.
  pose proof (ln_epsilon_nonpos util_epsilon util_epsilon_small) as Hneg.
  unfold valid_parameters, floor_parameters; simpl.
  repeat split; try reflexivity.
  constructor; [lra | constructor].
Qed.

(** C4, as stated, fails: at the lower clamp bound the variance
    [epsilon * epsilon] is below the floor [epsilon] of the denominator, and
    the divergence of the parameter set from itself is
    [(epsilon - 1) / 2], about [-0.5], not about [0]. *)
Lemma kl_divergence_self_at_floor_not_zero :
  valid_parameters util_epsilon floor_parameters /\
  kl_divergence util_epsilon floor_parameters floor_parameters
    = [(util_epsilon - 1) / 2] /\
  ~ Forall (fun v => Rabs v <= 0.01)
      (kl_divergence util_epsilon floor_parameters floor_parameters).
Proof.
  assert (Hkl : kl_divergence util_epsilon floor_parameters floor_parameters
                = [(util_epsilon - 1) / 2]).
  { unfold kl_divergence, floor_parameters; simpl.
    unfold t_sub_s, t_add, t_div, s_mul, t_sub, tf_square, tf_maximum_r,
      elementwise; simpl.
    f_equal.
    rewrite exp_ln by (unfold util_epsilon; lra).
    rewrite Rmax_right by (unfold util_epsilon; lra).
    unfold half, util_epsilon. replace 0.5 with (/ 2) by lra. field. }
  split; [exact floor_parameters_valid | split; [exact Hkl |]].
  rewrite Hkl. intros Hall. inversion Hall as [|v l Hv _]; subst.
  revert Hv. unfold util_epsilon.
  rewrite Rabs_left by lra. lra.
Qed.

(** C4, amended: for every valid parameter set whose variance
    [stddev * stddev] is at least [epsilon] elementwise, the divergence of
    the parameter set from itself is [0] at every element of the action
    shape. *)
Theorem kl_divergence_self_zero_above_floor (epsilon : R) (p : Parameters) :
  0 < epsilon ->
  valid_parameters epsilon p ->
  Forall (fun s => epsilon <= s * s) (stddev p) ->
  kl_divergence epsilon p p = map (fun _ => 0) (mean p).
Proof.
  intros Heps [Hs [Hl _]] Hfloor.
  destruct p as [m s l]; simpl in *.
  unfold kl_divergence; simpl.
  unfold t_sub_s, t_add, t_div, s_mul, t_sub, tf_square, tf_maximum_r,
    elementwise.
  revert s l Hs Hl Hfloor.
  induction m as [|m0 m IH]; intros s l Hs Hl Hfloor.
  - destruct l; [reflexivity | discriminate].
  - destruct s as [|s0 s]; [discriminate|].
    destruct l as [|l0 l]; [discriminate|].
    injection Hs as Hs. injection Hl as Hl.
    inversion Hfloor as [|? ? Hs0 Hrest]; subst.
    simpl. f_equal.
    + rewrite Rmax_left by exact Hs0.
      unfold half. replace 0.5 with (/ 2) by lra. field. nra.
    + apply IH; assumption.
Qed.

Lemma kl_divergence_self_zero_above_floor_witness :
  kl_divergence util_epsilon unit_stddev_parameters unit_stddev_parameters
  = [0; 0].
Proof.
  pose proof util_epsilon_small as Hsmall.
  pose proof (ln_epsilon_nonpos util_epsilon Hsmall) as Hneg.
  apply (kl_divergence_self_zero_above_floor util_epsilon
           unit_stddev_parameters).
  - lra.
  - unfold valid_parameters, unit_stddev_parameters; simpl.
    repeat split; try reflexivity.
    repeat constructor; lra.
  - unfold unit_stddev_parameters; simpl. rewrite exp_0.
    repeat constructor; unfold util_epsilon; lra.
Defined.

(** ** Construction *)

(** An embedding of shape [(4, 5)] against an action of shape [(3,)]: the
    validation error names the argument, carries the input shape and the
    hint. *)
Lemma Gaussian_init_incompatible_example
    (embedding_shape : option (list Z)) (util_product : list Z -> Z -> Z)
    (submodule : string -> Z -> TensorSpec -> Linear) (name : option string) :
  Gaussian_init embedding_shape util_product submodule name
    (float_spec [3%Z]) (float_spec [4%Z; 5%Z])
  = Raise (TensorforceError_value name "input_spec.shape" [4%Z; 5%Z]
             "not flattened and incompatible with action shape").
Proof. reflexivity. Qed.

(** For float specifications and an embedding of rank 2 or 3 that fits the
    action shape in neither way, the validation error names the argument,
    carries the input shape and the hint. *)
Lemma Gaussian_init_incompatible
    (embedding_shape : option (list Z)) (util_product : list Z -> Z -> Z)
    (submodule : string -> Z -> TensorSpec -> Linear) (name : option string)
    (action_spec input_spec : TensorSpec) :
  type action_spec = "float"%string ->
  type input_spec = "float"%string ->
  (2 <= rank input_spec <= 3)%nat ->
  removelast (shape input_spec) <> removelast (shape action_spec) ->
  removelast (shape input_spec) <> shape action_spec ->
  Gaussian_init embedding_shape util_product submodule name
    action_spec input_spec
  = Raise (TensorforceError_value name "input_spec.shape" (shape input_spec)
             "not flattened and incompatible with action shape").
Proof.
  intros Hty _ Hrank Hne1 Hne2. unfold Gaussian_init.
  rewrite Hty; simpl.
  destruct (Nat.eqb_spec (rank input_spec) 1) as [E|_]; [lia|].
  destruct (Nat.ltb_spec (rank input_spec) 1) as [L|_]; [lia|].
  destruct (Nat.ltb_spec 3 (rank input_spec)) as [L|_]; [lia|].
  simpl.
  destruct (tuple_eqb (removelast (shape input_spec))
              (removelast (shape action_spec))) eqn:E1.
  { apply tuple_eqb_eq in E1. contradiction. }
  destruct (tuple_eqb (removelast (shape input_spec)) (shape action_spec))
    eqn:E2.
  { apply tuple_eqb_eq in E2. contradiction. }
  reflexivity.
Qed.

Lemma Gaussian_init_incompatible_witness :
  Gaussian_init None (fun _ empty => empty) (fun _ _ _ => unit_layer) None
    (float_spec [3%Z]) (float_spec [4%Z; 5%Z])
  = Raise (TensorforceError_value None "input_spec.shape"
             (shape (float_spec [4%Z; 5%Z]))
             "not flattened and incompatible with action shape").
Proof.
  apply (Gaussian_init_incompatible None (fun _ empty => empty)
           (fun _ _ _ => unit_layer) None
           (float_spec [3%Z]) (float_spec [4%Z; 5%Z])).
  - reflexivity.
  - reflexivity.
  - unfold rank; simpl. lia.
  - simpl. discriminate.
  - simpl. intros H. injection H as H. lia.
Defined.

(** In the rank check the reported value is the attribute
    [embedding_shape], whatever the input shape is. *)
Lemma Gaussian_init_invalid_rank
    (embedding_shape : option (list Z)) (util_product : list Z -> Z -> Z)
    (submodule : string -> Z -> TensorSpec -> Linear) (name : option string)
    (action_spec input_spec : TensorSpec) :
  type action_spec = "float"%string ->
  type input_spec = "float"%string ->
  (rank input_spec < 1 \/ 3 < rank input_spec)%nat ->
  Gaussian_init embedding_shape util_product submodule name
    action_spec input_spec
  = match embedding_shape with
    | None => Raise (AttributeError "embedding_shape")
    | Some v =>
        Raise (TensorforceError_value name "input_spec.shape" v "invalid rank")
    end.
Proof.
  intros Hty _ Hrank. unfold Gaussian_init.
  rewrite Hty; simpl.
  destruct (Nat.eqb_spec (rank input_spec) 1) as [E|_]; [lia|].
  assert (Hb : Nat.ltb (rank input_spec) 1 || Nat.ltb 3 (rank input_spec)
               = true).
  { apply orb_true_iff. rewrite !Nat.ltb_lt. exact Hrank. }
  rewrite Hb. reflexivity.
Qed.

(** C5, at an embedding of rank 0 (and likewise of rank 4): the rank check
    reads [self.embedding_shape], which the constructor never receives, so
    the construction ends in an attribute error and not in the validation
    error that carries the input shape and the hint. *)
Theorem Gaussian_init_invalid_rank_attribute_error
    (util_product : list Z -> Z -> Z)
    (submodule : string -> Z -> TensorSpec -> Linear) (name : option string) :
  Gaussian_init None util_product submodule name
    (float_spec [3%Z]) (float_spec [])
  = Raise (AttributeError "embedding_shape") /\
  Gaussian_init None util_product submodule name
    (float_spec [3%Z]) (float_spec [2%Z; 3%Z; 4%Z; 5%Z])
  = Raise (AttributeError "embedding_shape").
Proof. split; reflexivity. Qed.

(** ** The parameters that [parametrize] returns *)

Lemma clip_identity (lo hi v : R) :
  lo <= v <= hi -> Rmax (Rmin v hi) lo = v.
Proof.
  intros [Hlo Hhi]. rewrite Rmin_left by exact Hhi.
  apply Rmax_left. exact Hlo.
Qed.

Lemma exp_le_compat (x y : R) : x <= y -> exp x <= exp y.
Proof.
  intros [Hlt | ->]; [left; apply exp_increasing; exact Hlt | right; reflexivity].
Qed.

(** The standard deviation that [parametrize] returns lies in
    [[epsilon, 1 / epsilon]]: it reaches neither 0 nor infinity. *)
Theorem parametrize_stddev_bounds
    (epsilon : R) (self : Gaussian) (x : tensor) :
  0 < epsilon < 1 ->
  Forall (fun s => epsilon <= s <= / epsilon)
    (stddev (parametrize epsilon self x)).
Proof.
  intros Heps.
  assert (Hneg : ln epsilon < 0) by (apply ln_epsilon_nonpos; exact Heps).
  assert (Hrange :
    Forall (fun l => ln epsilon <= l <= - ln epsilon)
      (log_stddev (parametrize epsilon self x))).
  { unfold parametrize; simpl.
    destruct (Nat.eqb (rank (input_spec self)) 1); unfold tf_reshape;
      apply tf_clip_by_value_in_range; lra. }
  change (stddev (parametrize epsilon self x))
    with (tf_exp (log_stddev (parametrize epsilon self x))).
  unfold tf_exp. apply Forall_map.
  eapply Forall_impl; [|exact Hrange].
  intros l [Hlo Hhi]. split.
  - rewrite <- (exp_ln epsilon) at 1 by lra. apply exp_le_compat. exact Hlo.
  - rewrite <- (exp_ln epsilon) at 1 by lra. rewrite <- exp_Ropp.
    apply exp_le_compat. exact Hhi.
Qed.

Lemma parametrize_stddev_bounds_witness :
  Forall (fun s => util_epsilon <= s <= / util_epsilon)
    (stddev (parametrize util_epsilon example_gaussian [100; -100])).
Proof.
  apply (parametrize_stddev_bounds util_epsilon example_gaussian [100; -100]).
  unfold util_epsilon. lra.
Defined.

(** When the two layers return tensors of the same size, [parametrize]
    returns a valid parameter set. *)
Theorem parametrize_valid (epsilon : R) (self : Gaussian) (x : tensor) :
  0 < epsilon < 1 ->
  List.length (mean_layer self x) = List.length (log_stddev_layer self x) ->
  valid_parameters epsilon (parametrize epsilon self x).
Proof.
  intros Heps Hlen.
  assert (Hneg : ln epsilon < 0) by (apply ln_epsilon_nonpos; exact Heps).
  unfold valid_parameters, parametrize; simpl.
  destruct (Nat.eqb (rank (input_spec self)) 1);
    unfold tf_reshape, tf_exp, tf_clip_by_value, tf_maximum_r, tf_minimum_r;
    rewrite !length_map;
    (repeat split; [congruence | congruence | ]);
    apply (tf_clip_by_value_in_range _ (ln epsilon) (- ln epsilon)); lra.
Qed.

Lemma parametrize_valid_witness :
  valid_parameters util_epsilon
    (parametrize util_epsilon example_gaussian [100; -100]).
Proof.
  apply (parametrize_valid util_epsilon example_gaussian [100; -100]).
  - unfold util_epsilon. lra.
  - reflexivity.
Defined.

(** A log-stddev that the layer already returns inside the clamp interval
    is passed on unchanged. *)
Theorem parametrize_keeps_log_stddev_in_range
    (epsilon : R) (self : Gaussian) (x : tensor) :
  Forall (fun l => ln epsilon <= l <= - ln epsilon) (log_stddev_layer self x) ->
  log_stddev (parametrize epsilon self x) = log_stddev_layer self x.
Proof.
  intros Hin. unfold parametrize; simpl.
  assert (Hclip : tf_clip_by_value (log_stddev_layer self x) (ln epsilon)
                    (- ln epsilon) = log_stddev_layer self x).
  { unfold tf_clip_by_value, tf_maximum_r, tf_minimum_r. rewrite map_map.
    induction Hin as [|l t Hl _ IH]; simpl; [reflexivity|].
    rewrite clip_identity by exact Hl. rewrite IH. reflexivity. }
  destruct (Nat.eqb (rank (input_spec self)) 1); unfold tf_reshape;
    exact Hclip.
Qed.

Lemma parametrize_keeps_log_stddev_in_range_witness :
  log_stddev (parametrize util_epsilon example_gaussian [1; -1])
  = log_stddev_layer example_gaussian [1; -1].
Proof.
  pose proof (ln_epsilon_nonpos util_epsilon util_epsilon_small) as Hneg.
  assert (Hbig : ln util_epsilon < -1).
  { rewrite <- (ln_exp (-1)). apply ln_increasing.
    - unfold util_epsilon; lra.
    - replace (exp (-1)) with (/ exp 1)
        by (rewrite <- exp_Ropp; f_equal; lra).
      unfold util_epsilon.
      pose proof (exp_pos 1) as Hpos. pose proof exp_le_3 as Hle.
      apply Rinv_lt_contravar; [nra | lra]. }
  apply (parametrize_keeps_log_stddev_in_range util_epsilon example_gaussian
           [1; -1]).
  unfold example_gaussian, unit_layer; simpl.
  repeat constructor; lra.
Defined.

(** ** Entropy and log-density *)

Lemma ln_two_pi_e : ln (two * pi_const * e_const) = ln (two * pi_const) + 1.
Proof.
  unfold two, pi_const, e_const.
  pose proof PI_RGT_0 as Hpi. pose proof (exp_pos 1) as He.
  rewrite ln_mult by lra. rewrite ln_exp. reflexivity.
Qed.

(** The entropy grows with the log-stddev, element by element. *)
Theorem entropy_monotone (p1 p2 : Parameters) :
  Forall2 Rle (log_stddev p1) (log_stddev p2) ->
  Forall2 Rle (entropy p1) (entropy p2).
Proof.
  unfold entropy, t_add_s.
  induction 1 as [|l1 l2 t1 t2 Hle _ IH]; simpl; constructor.
  - lra.
  - exact IH.
Qed.

Lemma entropy_monotone_witness :
  Forall2 Rle (entropy unit_stddev_parameters) (entropy example_parameters).
Proof.
  apply (entropy_monotone unit_stddev_parameters example_parameters).
  simpl. constructor; [lra|]. constructor; [|constructor].
  rewrite <- ln_1. left. apply ln_increasing; lra.
Defined.

(** Entropy and [states_value] add up to one half at every element: the
    two differ only in sign and in the constant. *)
Theorem entropy_plus_states_value (p : Parameters) :
  t_add (entropy p) (states_value p) = map (fun _ => half) (log_stddev p).
Proof.
  unfold entropy, states_value, t_add, t_add_s, t_sub_s, t_neg, elementwise.
  rewrite ln_two_pi_e.
  induction (log_stddev p) as [|l t IH]; simpl; [reflexivity|].
  f_equal; [unfold half; lra | exact IH].
Qed.

(** The log-density of the mean itself is [states_value]. *)
Theorem log_probability_at_mean (epsilon : R) (p : Parameters) :
  List.length (stddev p) = List.length (mean p) ->
  List.length (log_stddev p) = List.length (mean p) ->
  log_probability epsilon p (mean p) = states_value p.
Proof.
  destruct p as [m s l]; simpl.
  unfold log_probability, states_value; simpl.
  unfold t_sub, t_div, t_sub_s, t_neg, s_mul, tf_square, tf_maximum_r,
    elementwise.
  revert s l. induction m as [|m0 m IH]; intros s l Hs Hl.
  - destruct l; [reflexivity | discriminate].
  - destruct s as [|s0 s]; [discriminate|].
    destruct l as [|l0 l]; [discriminate|].
    injection Hs as Hs. injection Hl as Hl. simpl.
    f_equal; [unfold Rdiv; ring | apply IH; assumption].
Qed.

Lemma log_probability_at_mean_witness :
  log_probability util_epsilon example_parameters (mean example_parameters)
  = states_value example_parameters.
Proof.
  apply (log_probability_at_mean util_epsilon example_parameters);
    reflexivity.
Defined.

Lemma floored_variance_pos (epsilon s : R) :
  0 < epsilon -> 0 < Rmax (s * s) epsilon.
Proof.
  intros Heps. apply Rlt_le_trans with epsilon; [exact Heps | apply Rmax_r].
Qed.

(** No action has a larger log-density than the mean: [log_probability] is
    bounded above by [states_value]. *)
Theorem log_probability_le_states_value
    (epsilon : R) (p : Parameters) (action : tensor) :
  0 < epsilon ->
  List.length (mean p) = List.length action ->
  List.length (stddev p) = List.length action ->
  List.length (log_stddev p) = List.length action ->
  Forall2 Rle (log_probability epsilon p action) (states_value p).
Proof.
  intros Heps. destruct p as [m s l]; simpl.
  unfold log_probability, states_value; simpl.
  unfold t_sub, t_div, t_sub_s, t_neg, s_mul, tf_square, tf_maximum_r,
    elementwise.
  revert m s l. induction action as [|a action IH]; intros m s l Hm Hs Hl.
  - destruct l; [constructor | discriminate].
  - destruct m as [|m0 m]; [discriminate|].
    destruct s as [|s0 s]; [discriminate|].
    destruct l as [|l0 l]; [discriminate|].
    injection Hm as Hm. injection Hs as Hs. injection Hl as Hl. simpl.
    constructor; [|apply IH; assumption].
    pose proof (floored_variance_pos epsilon s0 Heps) as Hpos.
    assert (Hq : 0 <= (a - m0) * (a - m0) * / Rmax (s0 * s0) epsilon).
    { apply Rmult_le_pos; [exact (Rle_0_sqr (a - m0))|].
      left. apply Rinv_0_lt_compat. exact Hpos. }
    unfold Rdiv, half. lra.
Qed.

Lemma log_probability_le_states_value_witness :
  Forall2 Rle (log_probability util_epsilon example_parameters [4; 4])
    (states_value example_parameters).
Proof.
  apply (log_probability_le_states_value util_epsilon example_parameters
           [4; 4]); try reflexivity.
  unfold util_epsilon; lra.
Defined.

(** The log-density is symmetric about the mean. *)
Theorem log_probability_symmetric
    (epsilon : R) (p : Parameters) (offset : tensor) :
  log_probability epsilon p (t_add (mean p) offset)
  = log_probability epsilon p (t_sub (mean p) offset).
Proof.
  destruct p as [m s l]; simpl.
  unfold log_probability; simpl.
  unfold t_add, t_sub, t_div, t_sub_s, s_mul, tf_square, tf_maximum_r,
    elementwise.
  revert offset s l. induction m as [|m0 m IH]; intros offset s l.
  - reflexivity.
  - destruct offset as [|d offset]; [reflexivity|].
    destruct s as [|s0 s]; [reflexivity|].
    destruct l as [|l0 l]; [reflexivity|].
    simpl. f_equal; [|apply IH].
    replace ((m0 + d - m0) * (m0 + d - m0))
      with ((m0 - d - m0) * (m0 - d - m0)) by ring.
    reflexivity.
Qed.

(** ** KL divergence *)

Lemma exp_square_ratio (l1 l2 : R) :
  exp l1 * exp l1 * / (exp l2 * exp l2) = exp (2 * (l1 - l2)).
Proof.
  replace (2 * (l1 - l2)) with (l1 + l1 + - (l2 + l2)) by lra.
  rewrite !exp_plus, exp_Ropp, !exp_plus. reflexivity.
Qed.

(** For parameter sets with [stddev = exp(log_stddev)], where the variance
    of the second is at least [epsilon], the divergence is nowhere
    negative. *)
Theorem kl_divergence_nonnegative_above_floor
    (epsilon : R) (p1 p2 : Parameters) :
  0 < epsilon ->
  valid_parameters epsilon p1 ->
  valid_parameters epsilon p2 ->
  Forall (fun s => epsilon <= s * s) (stddev p2) ->
  Forall (fun v => 0 <= v) (kl_divergence epsilon p1 p2).
Proof.
  intros Heps (_ & _ & Hs1 & _) (_ & _ & Hs2 & _).
  destruct p1 as [m1 s1 l1]; destruct p2 as [m2 s2 l2]; simpl in *.
  subst s1 s2. unfold kl_divergence; simpl.
  unfold t_sub_s, t_add, t_div, s_mul, t_sub, tf_square, tf_maximum_r,
    tf_exp, elementwise.
  revert l2 m1 m2. induction l1 as [|a1 l1 IH]; intros l2 m1 m2 Hfloor.
  - destruct l2; simpl; constructor.
  - destruct l2 as [|a2 l2]; [constructor|].
    inversion Hfloor as [|? ? Ha2 Hrest]; subst.
    destruct m1 as [|b1 m1]; [constructor|].
    destruct m2 as [|b2 m2]; [constructor|].
    simpl. constructor; [|apply IH; exact Hrest].
    rewrite Rmax_left by exact Ha2.
    pose proof (exp_square_ratio a1 a2) as Hratio.
    pose proof (exp_ineq1_le (2 * (a1 - a2))) as Hexp.
    assert (Hpos : 0 < exp a2 * exp a2) by lra.
    assert (Hd : 0 <= (b1 - b2) * (b1 - b2) * / (exp a2 * exp a2)).
    { apply Rmult_le_pos; [exact (Rle_0_sqr (b1 - b2))|].
      left. apply Rinv_0_lt_compat. exact Hpos. }
    unfold Rdiv, half.
    replace (0.5 * (exp a1 * exp a1 + (b1 - b2) * (b1 - b2))
             * / (exp a2 * exp a2))
      with (0.5 * (exp a1 * exp a1 * / (exp a2 * exp a2))
            + 0.5 * ((b1 - b2) * (b1 - b2) * / (exp a2 * exp a2))) by ring.
    rewrite Hratio. lra.
Qed.

Lemma ln_util_epsilon_below : ln util_epsilon < -1.
Proof.
  rewrite <- (ln_exp (-1)). apply ln_increasing.
  - unfold util_epsilon; lra.
  - replace (exp (-1)) with (/ exp 1)
      by (rewrite <- exp_Ropp; f_equal; lra).
    unfold util_epsilon.
    pose proof (exp_pos 1) as Hpos. pose proof exp_le_3 as Hle.
    apply Rinv_lt_contravar; [nra | lra].
Qed.

Lemma kl_divergence_nonnegative_above_floor_witness :
  Forall (fun v => 0 <= v)
    (kl_divergence util_epsilon unit_stddev_parameters wide_parameters).
Proof.
  pose proof util_epsilon_small as Hsmall.
  pose proof ln_util_epsilon_below as Hbelow.
  apply (kl_divergence_nonnegative_above_floor util_epsilon
           unit_stddev_parameters wide_parameters).
  - lra.
  - unfold valid_parameters, unit_stddev_parameters; simpl.
    repeat split; try reflexivity. repeat constructor; lra.
  - unfold valid_parameters, wide_parameters; simpl.
    repeat split; try reflexivity. repeat constructor; lra.
  - unfold wide_parameters; simpl.
    pose proof (exp_ineq1_le 1) as Hexp.
    repeat constructor; unfold util_epsilon; nra.
Defined.

(** ** More on the bounds of [sample] *)

(** A declared upper bound holds for every sampled action, whatever the
    lower bound is. *)
Theorem sample_never_above_max
    (self : Gaussian) (p : Parameters) (temperature : R) (noise : tensor)
    (hi : R) :
  max_value (action_spec self) = Some hi ->
  Forall (fun a => a <= hi) (sample self p temperature noise).
Proof.
  intros Hmax. unfold sample. rewrite Hmax.
  unfold tf_minimum_l. apply Forall_map.
  apply Forall_forall. intros v _. apply Rmin_l.
Qed.

Lemma sample_never_above_max_witness :
  Forall (fun a => a <= 1)
    (sample example_gaussian example_parameters 2 [10; 0.25]).
Proof.
  apply (sample_never_above_max example_gaussian example_parameters 2
           [10; 0.25] 1).
  reflexivity.
Defined.

(** With a lower bound only, every sampled action is at least that bound. *)
Theorem sample_lower_bound_only
    (self : Gaussian) (p : Parameters) (temperature : R) (noise : tensor)
    (lo : R) :
  min_value (action_spec self) = Some lo ->
  max_value (action_spec self) = None ->
  Forall (fun a => lo <= a) (sample self p temperature noise).
Proof.
  intros Hmin Hmax. unfold sample. rewrite Hmin, Hmax.
  unfold tf_maximum_l. apply Forall_map.
  apply Forall_forall. intros v _. apply Rmax_l.
Qed.

Lemma sample_lower_bound_only_witness :
  Forall (fun a => 0 <= a)
    (sample floored_gaussian example_parameters 2 [10; 0.25]).
Proof.
  apply (sample_lower_bound_only floored_gaussian example_parameters 2
           [10; 0.25] 0); reflexivity.
Defined.

(** An action that is inside the bounds before clipping is returned as it
    is: the clip changes only what lies outside. *)
Theorem sample_in_bounds_unchanged
    (self : Gaussian) (p : Parameters) (temperature : R) (noise : tensor)
    (lo hi : R) :
  min_value (action_spec self) = Some lo ->
  max_value (action_spec self) = Some hi ->
  Forall (fun a => lo <= a <= hi) (unclipped_action p temperature noise) ->
  sample self p temperature noise = unclipped_action p temperature noise.
Proof.
  intros Hmin Hmax Hin. unfold sample. rewrite Hmin, Hmax.
  fold (unclipped_action p temperature noise).
  unfold tf_minimum_l, tf_maximum_l. rewrite map_map.
  induction Hin as [|a t [Hlo Hhi] _ IH]; simpl; [reflexivity|].
  rewrite IH. f_equal.
  rewrite Rmax_right by exact Hlo. apply Rmin_right. exact Hhi.
Qed.

Lemma sample_in_bounds_unchanged_witness :
  sample example_gaussian small_parameters 0.1 [1; -2]
  = unclipped_action small_parameters 0.1 [1; -2].
Proof.
  apply (sample_in_bounds_unchanged example_gaussian small_parameters 0.1
           [1; -2] (-1) 1).
  - reflexivity.
  - reflexivity.
  - unfold unclipped_action, t_add, t_mul, t_mul_s, elementwise; simpl.
    repeat constructor; lra.
Defined.

(** ** More on construction *)

Lemma removelast_nonempty {A : Type} (l : list A) :
  removelast l <> [] -> l <> [].
Proof. intros H ->. apply H. reflexivity. Qed.

Lemma removelast_of_rank (l : list Z) :
  (2 <= List.length l)%nat -> removelast l <> [].
Proof.
  destruct l as [|a [|b l]]; simpl; intros H; try lia. discriminate.
Qed.

Lemma last_dimension_exists (input_shape action_shape : list Z) :
  (2 <= List.length input_shape)%nat ->
  removelast input_shape = removelast action_shape ->
  exists size t, rev action_shape = size :: t.
Proof.
  intros Hrank Heq.
  assert (Hne : action_shape <> []).
  { apply removelast_nonempty. rewrite <- Heq.
    apply removelast_of_rank. exact Hrank. }
  destruct (rev action_shape) as [|size t] eqn:Hrev.
  - exfalso. apply Hne.
    rewrite <- (rev_involutive action_shape), Hrev. reflexivity.
  - exists size, t. reflexivity.
Qed.

(** The constructor never ends in an index error: where it reads the last
    dimension of the action shape, that shape is not empty. *)
Theorem Gaussian_init_never_index_error
    (embedding_shape : option (list Z)) (util_product : list Z -> Z -> Z)
    (submodule : string -> Z -> TensorSpec -> Linear) (name : option string)
    (action_spec input_spec : TensorSpec) :
  Gaussian_init embedding_shape util_product submodule name
    action_spec input_spec
  <> Raise IndexError.
Proof.
  unfold Gaussian_init.
  destruct (negb (String.eqb (type action_spec) "float")); [discriminate|].
  destruct (Nat.eqb_spec (rank input_spec) 1) as [E|N]; [discriminate|].
  destruct (Nat.ltb_spec (rank input_spec) 1) as [L1|G1]; simpl.
  { destruct embedding_shape; discriminate. }
  destruct (Nat.ltb_spec 3 (rank input_spec)) as [L3|G3]; simpl.
  { destruct embedding_shape; discriminate. }
  destruct (tuple_eqb (removelast (shape input_spec))
              (removelast (shape action_spec))) eqn:E1.
  - apply tuple_eqb_eq in E1.
    destruct (last_dimension_exists (shape input_spec) (shape action_spec))
      as (size & t & Hrev); [unfold rank in *; lia | exact E1 |].
    rewrite Hrev. discriminate.
  - destruct (tuple_eqb (removelast (shape input_spec)) (shape action_spec));
      discriminate.
Qed.

(** For float specifications, the construction succeeds exactly when the
    embedding is flat, or has rank 2 or 3 and agrees with the action shape
    on the leading dimensions in one of the two ways. *)
Theorem Gaussian_init_succeeds_iff
    (embedding_shape : option (list Z)) (util_product : list Z -> Z -> Z)
    (submodule : string -> Z -> TensorSpec -> Linear) (name : option string)
    (action_spec input_spec : TensorSpec) :
  type action_spec = "float"%string ->
  type input_spec = "float"%string ->
  (exists self,
     Gaussian_init embedding_shape util_product submodule name
       action_spec input_spec = Ok self) <->
  (rank input_spec = 1%nat \/
   ((2 <= rank input_spec <= 3)%nat /\
    (removelast (shape input_spec) = removelast (shape action_spec) \/
     removelast (shape input_spec) = shape action_spec))).
Proof.
  intros Hty _.
  unfold Gaussian_init. rewrite Hty; simpl.
  destruct (Nat.eqb_spec (rank input_spec) 1) as [E|N].
  { split; [intros _; left; exact E | intros _; eexists; reflexivity]. }
  destruct (Nat.ltb_spec (rank input_spec) 1) as [L1|G1]; simpl.
  { split.
    - intros [self H]. destruct embedding_shape; discriminate.
    - intros [H | [H _]]; lia. }
  destruct (Nat.ltb_spec 3 (rank input_spec)) as [L3|G3]; simpl.
  { split.
    - intros [self H]. destruct embedding_shape; discriminate.
    - intros [H | [H _]]; lia. }
  destruct (tuple_eqb (removelast (shape input_spec))
              (removelast (shape action_spec))) eqn:E1.
  - apply tuple_eqb_eq in E1. split.
    + intros _. right. split; [lia | left; exact E1].
    + intros _.
      destruct (last_dimension_exists (shape input_spec) (shape action_spec))
        as (size & t & Hrev); [unfold rank in *; lia | exact E1 |].
      rewrite Hrev. eexists; reflexivity.
  - destruct (tuple_eqb (removelast (shape input_spec)) (shape action_spec))
      eqn:E2.
    + apply tuple_eqb_eq in E2. split.
      * intros _. right. split; [lia | right; exact E2].
      * intros _. eexists; reflexivity.
    + split.
      * intros [self H]. discriminate.
      * intros [H | [_ [H | H]]]; [lia | |].
        -- apply tuple_eqb_eq in H. congruence.
        -- apply tuple_eqb_eq in H. congruence.
Qed.

Lemma Gaussian_init_succeeds_iff_witness :
  (exists self,
     Gaussian_init None (fun _ empty => empty) (fun _ _ _ => unit_layer) None
       (float_spec [4%Z; 3%Z]) (float_spec [4%Z; 5%Z]) = Ok self) <->
  (rank (float_spec [4%Z; 5%Z]) = 1%nat \/
   ((2 <= rank (float_spec [4%Z; 5%Z]) <= 3)%nat /\
    (removelast (shape (float_spec [4%Z; 5%Z]))
       = removelast (shape (float_spec [4%Z; 3%Z])) \/
     removelast (shape (float_spec [4%Z; 5%Z]))
       = shape (float_spec [4%Z; 3%Z])))).
Proof.
  apply (Gaussian_init_succeeds_iff None (fun _ empty => empty)
           (fun _ _ _ => unit_layer) None
           (float_spec [4%Z; 3%Z]) (float_spec [4%Z; 5%Z])).
  - reflexivity.
  - reflexivity.
Defined.

End GaussianTheory.





(** * Properties of the policy-gradient agent *)

Module PGAgentTheory.

Import PGAgent.
Open Scope Z_scope.

(** ** numpy on well-shaped input *)

Lemma shape_eqb_refl (s : list nat) : shape_eqb s s = true.
Proof.
  induction s as [|n s IH]; simpl; [reflexivity|].
  rewrite Nat.eqb_refl, IH. reflexivity.
Qed.

Lemma np_array_uniform (s : list nat) (xs : list pyobj) :
  uniform s xs -> xs <> [] ->
  exists a, np_array xs = Ok a /\ shape a = List.length xs :: s.
Proof.
  intros Hu Hne. destruct xs as [|x xs]; [congruence|].
  inversion Hu as [|? ? Hx Hxs]; subst.
  unfold np_array. cbn [map].
  assert (Hall : forallb
            (fun b => shape_eqb (shape b) (shape (asarray x)))
            (map asarray xs) = true).
  { apply forallb_forall. intros b Hin.
    apply in_map_iff in Hin. destruct Hin as [y [<- Hy]].
    rewrite Forall_forall in Hxs. rewrite (Hxs y Hy).
    apply shape_eqb_refl. }
  rewrite Hall. eexists. split; reflexivity.
Qed.

Lemma concatenate_rest_batched (tail : list nat) (arrays : list ndarray) :
  Forall (fun b => shape b = 1%nat :: tail) arrays ->
  exists d, concatenate_rest tail arrays = Ok (List.length arrays, d).
Proof.
  induction 1 as [|b arrays Hb _ [d IH]]; simpl.
  - eexists; reflexivity.
  - rewrite Hb, shape_eqb_refl, IH. simpl. eexists; reflexivity.
Qed.

Lemma np_concatenate_batched (tail : list nat) (xs : list pyobj) :
  uniform (1%nat :: tail) xs -> xs <> [] ->
  exists a, np_concatenate (map asarray xs) = Ok a /\
            shape a = List.length xs :: tail.
Proof.
  intros Hu Hne. destruct xs as [|x xs]; [congruence|].
  assert (Hall : Forall (fun b => shape b = 1%nat :: tail)
                   (map asarray (x :: xs))).
  { apply Forall_map. exact Hu. }
  destruct (concatenate_rest_batched tail _ Hall) as [d Hd].
  inversion Hu as [|? ? Hx _]; subst.
  unfold np_concatenate. cbn [map] in *. rewrite Hx, Hd. simpl.
  eexists. split; [reflexivity|]. simpl.
  rewrite length_map. reflexivity.
Qed.

(** Stacking, adding a leading axis of length 1 and concatenating over it
    gives back the shape of the stack. *)
Lemma np_concatenate_expand_dims (a : ndarray) (n : nat) (s : list nat) :
  shape a = n :: s ->
  exists b, np_concatenate (rows (np_expand_dims0 a)) = Ok b /\
            shape b = n :: s.
Proof.
  intros Ha. unfold rows, np_expand_dims0; simpl. rewrite Ha.
  unfold np_concatenate; simpl. rewrite shape_eqb_refl. simpl.
  eexists. split; [reflexivity|]. simpl. rewrite Nat.add_0_r. reflexivity.
Qed.

(** ** [get_path] on a well-formed episode *)

Lemma nonempty_of_length {A B : Type} (xs : list A) (ys : list B) :
  List.length xs = List.length ys -> ys <> [] -> xs <> [].
Proof.
  intros Hlen Hne ->. destruct ys; [congruence | discriminate].
Qed.

Lemma leading_of_shape (a : ndarray) (n : nat) (s : list nat) :
  shape a = n :: s -> leading a = Some n.
Proof. intros H. unfold leading. rewrite H. reflexivity. Qed.

Lemma get_path_wf (sh : step_shapes) (ep : episode) :
  episode_wf sh ep -> states ep <> [] ->
  exists p,
    get_path ep = Ok p /\
    path_terminated p = terminated ep /\
    leading (path_states p) = Some (episode_steps ep) /\
    leading (path_actions p) = Some (episode_steps ep) /\
    leading (path_rewards p) = Some (episode_steps ep) /\
    leading (path_action_means p) = Some (episode_steps ep) /\
    leading (path_action_log_stds p) = Some (episode_steps ep).
Proof.
  intros (Hst & Hac & Hrw & Ham & Hal & Lac & Lrw & Lam & Lal) Hne.
  unfold episode_steps.
  destruct (np_array_uniform _ _ Hst Hne) as [a1 [E1 S1]].
  destruct (np_concatenate_expand_dims a1 _ _ S1) as [a2 [E2 S2]].
  destruct (np_array_uniform _ _ Hac (nonempty_of_length _ _ Lac Hne))
    as [a3 [E3 S3]].
  destruct (np_concatenate_batched _ _ Ham (nonempty_of_length _ _ Lam Hne))
    as [a4 [E4 S4]].
  destruct (np_concatenate_batched _ _ Hal (nonempty_of_length _ _ Lal Hne))
    as [a5 [E5 S5]].
  destruct (np_array_uniform _ _ Hrw (nonempty_of_length _ _ Lrw Hne))
    as [a6 [E6 S6]].
  unfold get_path.
  rewrite E1; cbn [bind]. rewrite E2; cbn [bind]. rewrite E3; cbn [bind].
  rewrite E4; cbn [bind]. rewrite E5; cbn [bind]. rewrite E6; cbn [bind].
  eexists. split; [reflexivity|]. simpl.
  rewrite Lac in S3. rewrite Lrw in S6. rewrite Lam in S4. rewrite Lal in S5.
  repeat split; eapply leading_of_shape; eassumption.
Qed.

Lemma uniform_snoc (s : list nat) (xs : list pyobj) (x : pyobj) :
  uniform s xs -> shape (asarray x) = s -> uniform s (xs ++ [x]).
Proof.
  intros Hu Hx. apply Forall_app. split; [exact Hu|].
  constructor; [exact Hx | constructor].
Qed.

Lemma append_step_wf (sh : step_shapes) (self : agent) (state reward : pyobj) :
  episode_wf sh (current_episode self) ->
  step_wf sh self state reward ->
  episode_wf sh (append_step self state reward).
Proof.
  intros (Hst & Hac & Hrw & Ham & Hal & Lac & Lrw & Lam & Lal)
         (Ost & Oac & Orw & Oam & Oal).
  unfold episode_wf, append_step; simpl.
  rewrite !length_app, Lac, Lrw, Lam, Lal.
  repeat split; try reflexivity; apply uniform_snoc; assumption.
Qed.

Lemma append_step_steps (self : agent) (state reward : pyobj) :
  episode_steps (append_step self state reward)
  = S (episode_steps (current_episode self)).
Proof.
  unfold episode_steps, append_step; simpl.
  rewrite length_app. simpl. lia.
Qed.

Lemma append_step_nonempty (self : agent) (state reward : pyobj) :
  states (append_step self state reward) <> [].
Proof.
  unfold append_step; simpl. destruct (states (current_episode self));
    discriminate.
Qed.

Lemma empty_episode_wf (sh : step_shapes) : episode_wf sh empty_episode.
Proof.
  unfold episode_wf, empty_episode; simpl.
  repeat split; constructor.
Qed.

(** The path of the episode that the current call completes, with the
    flag [flag]. *)
Lemma finalize_step (sh : step_shapes) (self : agent) (state reward : pyobj)
    (flag : bool) :
  episode_wf sh (current_episode self) ->
  step_wf sh self state reward ->
  exists p,
    get_path (set_terminated (append_step self state reward) flag) = Ok p /\
    path_terminated p = Some flag /\
    leading (path_states p) = Some (S (episode_steps (current_episode self))) /\
    leading (path_actions p) = Some (S (episode_steps (current_episode self))) /\
    leading (path_rewards p) = Some (S (episode_steps (current_episode self))) /\
    leading (path_action_means p)
      = Some (S (episode_steps (current_episode self))) /\
    leading (path_action_log_stds p)
      = Some (S (episode_steps (current_episode self))).
Proof.
  intros Hep Hstep.
  pose proof (append_step_wf sh self state reward Hep Hstep) as Hwf.
  rewrite <- (append_step_steps self state reward).
  apply (get_path_wf sh (set_terminated (append_step self state reward) flag)).
  - exact Hwf.
  - apply append_step_nonempty.
Qed.

(** ** One call of [add_observation] *)

Ltac agent_simpl :=
  cbn [bind set_buffers current_episode current_batch batch_steps batch_size
       updater negb fst snd deepcopy].

(** C8, as stated, fails: the means and log-stddevs of a step are
    concatenated along their own batch axis.  After one [get_action] whose
    means and log-stddevs have a batch axis of length 2, a terminal
    observation below [batch_size] returns, the episode has one step, and
    the arrays of means and log-stddevs of its path have leading length 2. *)
Lemma terminal_before_batch_size_batch_axis_two :
  get_action (example_agent 5) double_batch_output
    = Ok (double_batch_agent, fst double_batch_output) /\
  batch_steps double_batch_agent + 1 < batch_size double_batch_agent /\
  exists p self',
    add_observation double_batch_agent example_state PyNone example_reward
      true = Ok (self', []) /\
    current_batch self' = [p] /\
    path_terminated p = Some true /\
    episode_steps
      (append_step double_batch_agent example_state example_reward) = 1%nat /\
    leading (path_states p) = Some 1%nat /\
    leading (path_action_means p) = Some 2%nat /\
    leading (path_action_log_stds p) = Some 2%nat /\
    leading (path_action_means p) <> Some 1%nat.
Proof.
  split; [reflexivity|]. split; [simpl; lia|].
  do 2 eexists. split; [vm_compute; reflexivity|].
  repeat split; try reflexivity. discriminate.
Qed.

(** C8, amended: when the recorded values of each field share one shape
    and every recorded mean and log-stddev carries a batch axis of length 1,
    a terminal observation whose step leaves the counter below [batch_size]
    finalizes the episode into a path with [terminated = True] whose arrays
    all have as many leading entries as the episode has steps; the path is
    appended to the batch, the episode buffer is reset, the updater is not
    called and the counter keeps its incremented value. *)
Theorem terminal_before_batch_size
    (sh : step_shapes) (self : agent) (state action reward : pyobj) :
  episode_wf sh (current_episode self) ->
  step_wf sh self state reward ->
  batch_steps self + 1 < batch_size self ->
  exists p self',
    add_observation self state action reward true = Ok (self', []) /\
    path_terminated p = Some true /\
    leading (path_states p) = Some (S (episode_steps (current_episode self))) /\
    leading (path_actions p) = Some (S (episode_steps (current_episode self))) /\
    leading (path_rewards p) = Some (S (episode_steps (current_episode self))) /\
    leading (path_action_means p)
      = Some (S (episode_steps (current_episode self))) /\
    leading (path_action_log_stds p)
      = Some (S (episode_steps (current_episode self))) /\
    current_batch self' = current_batch self ++ [p] /\
    current_episode self' = empty_episode /\
    batch_steps self' = batch_steps self + 1.
Proof.
  intros Hep Hstep Hlt.
  destruct (finalize_step sh self state reward true Hep Hstep)
    as (p & Hget & Hterm & Hlead).
  exists p. eexists. split.
  - unfold add_observation. agent_simpl. rewrite Hget. agent_simpl.
    destruct (Z.eqb_spec (batch_steps self + 1) (batch_size self)) as [E|_];
      [lia | reflexivity].
  - split; [exact Hterm|].
    destruct Hlead as (H1 & H2 & H3 & H4 & H5).
    repeat split; assumption.
Qed.

Lemma acting_agent_step_wf (n : Z) :
  step_wf example_shapes (acting_agent n) example_state example_reward.
Proof. repeat split. Qed.

Lemma terminal_before_batch_size_witness :
  exists p self',
    add_observation (acting_agent 3) example_state PyNone example_reward true
      = Ok (self', []) /\
    path_terminated p = Some true /\
    leading (path_states p) = Some 1%nat /\
    leading (path_actions p) = Some 1%nat /\
    leading (path_rewards p) = Some 1%nat /\
    leading (path_action_means p) = Some 1%nat /\
    leading (path_action_log_stds p) = Some 1%nat /\
    current_batch self' = [] ++ [p] /\
    current_episode self' = empty_episode /\
    batch_steps self' = 0 + 1.
Proof.
  apply (terminal_before_batch_size example_shapes (acting_agent 3)
           example_state PyNone example_reward).
  - apply empty_episode_wf.
  - apply acting_agent_step_wf.
  - simpl. lia.
Defined.

(** C1: when a terminal observation brings the counter to [batch_size], the
    completed episode becomes exactly one path (with [terminated = True]),
    the updater is called exactly once, with the batch extended by that one
    path, and afterwards episode buffer and batch buffer are empty and the
    counter is 0. *)
Theorem terminal_at_batch_size_finalizes_once
    (sh : step_shapes) (self : agent) (state action reward : pyobj) :
  updater self <> None ->
  episode_wf sh (current_episode self) ->
  step_wf sh self state reward ->
  batch_steps self + 1 = batch_size self ->
  exists p self',
    get_path (set_terminated (append_step self state reward) true) = Ok p /\
    path_terminated p = Some true /\
    add_observation self state action reward true
      = Ok (self', [current_batch self ++ [p]]) /\
    current_episode self' = empty_episode /\
    current_batch self' = [] /\
    batch_steps self' = 0.
Proof.
  intros Hupd Hep Hstep Heq.
  destruct (finalize_step sh self state reward true Hep Hstep)
    as (p & Hget & Hterm & _).
  exists p. eexists. split; [exact Hget|]. split; [exact Hterm|].
  split.
  - unfold add_observation. agent_simpl. rewrite Hget. agent_simpl.
    rewrite Heq, Z.eqb_refl. agent_simpl.
    destruct (updater self) as [u|]; [reflexivity | congruence].
  - repeat split.
Qed.

Lemma terminal_at_batch_size_finalizes_once_witness :
  exists p self',
    get_path (set_terminated
                (append_step (acting_agent 1) example_state example_reward)
                true) = Ok p /\
    path_terminated p = Some true /\
    add_observation (acting_agent 1) example_state PyNone example_reward true
      = Ok (self', [[] ++ [p]]) /\
    current_episode self' = empty_episode /\
    current_batch self' = [] /\
    batch_steps self' = 0.
Proof.
  apply (terminal_at_batch_size_finalizes_once example_shapes (acting_agent 1)
           example_state PyNone example_reward).
  - discriminate.
  - apply empty_episode_wf.
  - apply acting_agent_step_wf.
  - reflexivity.
Defined.

(** ** The step counter *)

Lemma add_observation_counter
    (self : agent) (state action reward : pyobj) (terminal : bool)
    (self' : agent) (ups : list (list path)) :
  add_observation self state action reward terminal = Ok (self', ups) ->
  batch_size self' = batch_size self /\
  ((batch_steps self + 1 = batch_size self /\
    batch_steps self' = 0 /\ List.length ups = 1%nat) \/
   (batch_steps self + 1 <> batch_size self /\
    batch_steps self' = batch_steps self + 1 /\ ups = [])).
Proof.
  unfold add_observation. agent_simpl.
  destruct terminal; agent_simpl.
  - destruct (get_path _) as [p|e]; agent_simpl; [|discriminate].
    destruct (Z.eqb_spec (batch_steps self + 1) (batch_size self)) as [E|N].
    + agent_simpl. destruct (updater self); [|discriminate].
      intros H; injection H as <- <-. simpl. auto.
    + intros H; injection H as <- <-. simpl. auto.
  - destruct (Z.eqb_spec (batch_steps self + 1) (batch_size self)) as [E|N].
    + destruct (get_path _) as [p|e]; agent_simpl; [|discriminate].
      destruct (updater self); [|discriminate].
      intros H; injection H as <- <-. simpl. auto.
    + intros H; injection H as <- <-. simpl. auto.
Qed.

Lemma get_action_counter
    (self : agent) (r : pyobj * outputs) (self' : agent) (ret : pyobj) :
  get_action self r = Ok (self', ret) ->
  self' = set_cache self (fst r) (out_action_means (snd r))
            (out_action_log_stds (snd r)).
Proof.
  unfold get_action. destruct (updater self); [|discriminate].
  destruct r as [act outs]. simpl.
  destruct (continuous self); simpl.
  - intros H; injection H as <- _. reflexivity.
  - destruct (np_argmax act); simpl; [|discriminate].
    intros H; injection H as <- _. reflexivity.
Qed.

Lemma do_call_counter (self : agent) (c : call)
    (self' : agent) (ups : list (list path)) :
  0 <= batch_steps self < batch_size self ->
  do_call self c = Ok (self', ups) ->
  batch_size self' = batch_size self /\
  0 <= batch_steps self' < batch_size self'.
Proof.
  intros Hinv. destruct c as [r | state action reward terminal]; simpl.
  - destruct (get_action self r) as [[s1 ret]|e] eqn:E; simpl; [|discriminate].
    intros H; injection H as <- _.
    rewrite (get_action_counter _ _ _ _ E). simpl. split; [reflexivity | lia].
  - intros H. destruct (add_observation_counter _ _ _ _ _ _ _ H)
      as [Hsize [(E & Hz & _) | (N & Hs & _)]]; split; try exact Hsize; lia.
Qed.

Lemma run_counter (calls : list call) :
  forall (self self' : agent) (ups : list (list path)),
  0 <= batch_steps self < batch_size self ->
  run self calls = Ok (self', ups) ->
  batch_size self' = batch_size self /\
  0 <= batch_steps self' < batch_size self'.
Proof.
  induction calls as [|c calls IH]; intros self self' ups Hinv; simpl.
  - intros H; injection H as <- _. split; [reflexivity | exact Hinv].
  - destruct (do_call self c) as [[s1 u1]|e] eqn:E1; simpl; [|discriminate].
    destruct (run s1 calls) as [[s2 u2]|e] eqn:E2; simpl; [|discriminate].
    intros H; injection H as <- _.
    destruct (do_call_counter _ _ _ _ Hinv E1) as [Hsz1 Hinv1].
    destruct (IH _ _ _ Hinv1 E2) as [Hsz2 Hinv2].
    split; [congruence | exact Hinv2].
Qed.

(** C10: with [batch_size >= 1], after any sequence of calls on a fresh
    agent the counter lies in [[0, batch_size)]; a further [add_observation]
    either leaves the incremented counter below [batch_size], or the
    incremented counter equals [batch_size], the updater is called once and
    the counter is 0 when the call returns. *)
Theorem batch_steps_below_batch_size
    (value_function_ref : option (Config -> Updater)) (cfg : Config)
    (calls : list call) (self : agent) (ups : list (list path)) :
  1 <= config_batch_size cfg ->
  run (PGAgent_init value_function_ref cfg) calls = Ok (self, ups) ->
  0 <= batch_steps self < batch_size self /\
  batch_size self = config_batch_size cfg /\
  forall state action reward terminal self' ups',
    add_observation self state action reward terminal = Ok (self', ups') ->
    (batch_steps self + 1 < batch_size self /\
     batch_steps self' = batch_steps self + 1 /\ ups' = []) \/
    (batch_steps self + 1 = batch_size self /\
     batch_steps self' = 0 /\ List.length ups' = 1%nat).
Proof.
  intros Hsize Hrun.
  assert (Hinit : 0 <= batch_steps (PGAgent_init value_function_ref cfg)
                  < batch_size (PGAgent_init value_function_ref cfg))
    by (simpl; lia).
  destruct (run_counter _ _ _ _ Hinit Hrun) as [Hsz Hinv].
  split; [exact Hinv|]. split; [exact Hsz|].
  intros state action reward terminal self' ups' Hadd.
  destruct (add_observation_counter _ _ _ _ _ _ _ Hadd)
    as [_ [(E & Hz & Hl) | (N & Hs & Hu)]].
  - right. auto.
  - left. repeat split; try assumption. lia.
Qed.

Lemma batch_steps_below_batch_size_witness :
  let self := agent_after (example_agent 3) two_episodes in
  0 <= batch_steps self < batch_size self /\
  batch_size self = 3 /\
  forall state action reward terminal self' ups',
    add_observation self state action reward terminal = Ok (self', ups') ->
    (batch_steps self + 1 < batch_size self /\
     batch_steps self' = batch_steps self + 1 /\ ups' = []) \/
    (batch_steps self + 1 = batch_size self /\
     batch_steps self' = 0 /\ List.length ups' = 1%nat).
Proof.
  apply (batch_steps_below_batch_size (Some example_updater)
           (example_config 3) two_episodes
           (agent_after (example_agent 3) two_episodes)
           (updates_during (example_agent 3) two_episodes)).
  - simpl. lia.
  - vm_compute. reflexivity.
Defined.

(** ** A batch of non-terminal steps *)

Lemma get_action_returns (self : agent) (r : pyobj * outputs) :
  updater self <> None ->
  (continuous self = true \/ exists i, np_argmax (fst r) = Ok i) ->
  exists ret,
    get_action self r
    = Ok (set_cache self (fst r) (out_action_means (snd r))
            (out_action_log_stds (snd r)), ret).
Proof.
  intros Hupd Hret. unfold get_action.
  destruct (updater self); [|congruence].
  destruct r as [act outs]. simpl in *.
  destruct (continuous self); simpl.
  - eexists; reflexivity.
  - destruct Hret as [Hc | [i Hi]]; [discriminate|].
    rewrite Hi. simpl. eexists; reflexivity.
Qed.

(** Calls of [get_action] alone leave the buffers and the counter alone. *)
Lemma run_without_observations (sh : step_shapes) (calls : list call) :
  forall self : agent,
  count_observations calls = 0%nat ->
  updater self <> None ->
  nonterminal_calls_wf sh (continuous self) (last_action self)
    (last_action_means self) (last_action_log_stds self) calls ->
  exists self',
    run self calls = Ok (self', []) /\
    current_batch self' = current_batch self /\
    current_episode self' = current_episode self /\
    batch_steps self' = batch_steps self.
Proof.
  induction calls as [|c calls IH]; intros self Hcount Hupd Hwf.
  - exists self. repeat split.
  - destruct c as [[act outs] | state action reward terminal];
      [|discriminate].
    simpl in Hcount, Hwf. destruct Hwf as [Hret Hwf].
    destruct (get_action_returns self (act, outs) Hupd Hret) as [ret Hget].
    simpl in Hget.
    destruct (IH (set_cache self act (out_action_means outs)
                    (out_action_log_stds outs)) Hcount Hupd Hwf)
      as (self' & Hrun & Hb & He & Hs).
    exists self'. simpl. rewrite Hget. simpl. rewrite Hrun. simpl.
    repeat split; assumption.
Qed.

Lemma run_fills_batch (sh : step_shapes) (calls : list call) :
  forall self : agent,
  updater self <> None ->
  current_batch self = [] ->
  episode_wf sh (current_episode self) ->
  batch_steps self = Z.of_nat (episode_steps (current_episode self)) ->
  batch_size self
  = Z.of_nat (episode_steps (current_episode self) + count_observations calls) ->
  (1 <= count_observations calls)%nat ->
  nonterminal_calls_wf sh (continuous self) (last_action self)
    (last_action_means self) (last_action_log_stds self) calls ->
  exists p self',
    run self calls = Ok (self', [[p]]) /\
    path_terminated p = Some false /\
    current_episode self' = empty_episode /\
    current_batch self' = [] /\
    batch_steps self' = 0.
Proof.
  induction calls as [|c calls IH];
    intros self Hupd Hbatch Hep Hsteps Hsize Hcount Hwf.
  - simpl in Hcount. lia.
  - destruct c as [[act outs] | state action reward terminal].
    + (* get_action *)
      simpl in Hcount, Hsize, Hwf. destruct Hwf as [Hret Hwf].
      destruct (get_action_returns self (act, outs) Hupd Hret) as [ret Hget].
      simpl in Hget.
      destruct (IH (set_cache self act (out_action_means outs)
                      (out_action_log_stds outs))
                  Hupd Hbatch Hep Hsteps Hsize Hcount Hwf)
        as (p & self' & Hrun & Hrest).
      exists p, self'. simpl. rewrite Hget. simpl. rewrite Hrun. simpl.
      split; [reflexivity | exact Hrest].
    + (* add_observation *)
      simpl in Hcount, Hsize, Hwf. destruct Hwf as (-> & Hobs & Hwf).
      destruct (Nat.eq_dec (count_observations calls) 0) as [Hlast | Hmore].
      * (* the step that fills the batch *)
        destruct (finalize_step sh self state reward false Hep Hobs)
          as (p & Hget & Hterm & _).
        assert (Hadd : add_observation self state action reward false
                       = Ok (set_buffers self [] empty_episode 0, [[p]])).
        { unfold add_observation. agent_simpl.
          replace (batch_steps self + 1 =? batch_size self) with true
            by (symmetry; apply Z.eqb_eq; lia).
          rewrite Hget. agent_simpl.
          destruct (updater self); [|congruence].
          rewrite Hbatch. reflexivity. }
        destruct (run_without_observations sh calls
                    (set_buffers self [] empty_episode 0) Hlast Hupd Hwf)
          as (self' & Hrun & Hb & He & Hs).
        exists p, self'. simpl. rewrite Hadd. simpl. rewrite Hrun. simpl.
        repeat split; assumption.
      * (* the batch is not full yet *)
        assert (Hadd : add_observation self state action reward false
                       = Ok (set_buffers self (current_batch self)
                               (append_step self state reward)
                               (batch_steps self + 1), [])).
        { unfold add_observation. agent_simpl.
          replace (batch_steps self + 1 =? batch_size self) with false
            by (symmetry; apply Z.eqb_neq; lia).
          reflexivity. }
        destruct (IH (set_buffers self (current_batch self)
                        (append_step self state reward)
                        (batch_steps self + 1)))
          as (p & self' & Hrun & Hrest).
        -- exact Hupd.
        -- exact Hbatch.
        -- apply append_step_wf; assumption.
        -- agent_simpl. rewrite append_step_steps. lia.
        -- agent_simpl. rewrite append_step_steps. rewrite Hsize.
           f_equal. lia.
        -- lia.
        -- exact Hwf.
        -- exists p, self'. simpl. rewrite Hadd. simpl. rewrite Hrun. simpl.
           split; [reflexivity | exact Hrest].
Qed.

(** C2: from a fresh agent, or just after a flush, a sequence of calls with
    exactly [batch_size] observations, all non-terminal, calls the updater
    exactly once; the batch handed over holds the force-finalized episode,
    marked [terminated = False]; afterwards both buffers are empty and the
    counter is 0. *)
Theorem batch_of_nonterminal_steps
    (sh : step_shapes) (self : agent) (calls : list call) :
  updater self <> None ->
  flushed self ->
  1 <= batch_size self ->
  batch_size self = Z.of_nat (count_observations calls) ->
  nonterminal_calls_wf sh (continuous self) (last_action self)
    (last_action_means self) (last_action_log_stds self) calls ->
  exists p self',
    run self calls = Ok (self', [[p]]) /\
    path_terminated p = Some false /\
    current_episode self' = empty_episode /\
    current_batch self' = [] /\
    batch_steps self' = 0.
Proof.
  intros Hupd (Hsteps & Hep & Hbatch) Hpos Hsize Hwf.
  apply (run_fills_batch sh calls self); try assumption.
  - rewrite Hep. apply empty_episode_wf.
  - rewrite Hep. exact Hsteps.
  - rewrite Hep. exact Hsize.
  - lia.
Qed.

Lemma batch_of_nonterminal_steps_witness :
  exists p self',
    run (example_agent 3) three_steps = Ok (self', [[p]]) /\
    path_terminated p = Some false /\
    current_episode self' = empty_episode /\
    current_batch self' = [] /\
    batch_steps self' = 0.
Proof.
  apply (batch_of_nonterminal_steps example_shapes (example_agent 3)
           three_steps).
  - discriminate.
  - repeat split.
  - simpl. lia.
  - reflexivity.
  - simpl. repeat split; auto.
Defined.

(** ** The model on small runs *)

(** [batch_size = 3] and the steps (non-terminal, non-terminal, terminal):
    the third step both ends the episode and fills the batch; one path of
    three steps is handed to the updater. *)
Example terminal_on_third_of_three :
  exists p,
    run (example_agent 3)
      [example_get_action; example_observation false;
       example_get_action; example_observation false;
       example_get_action; example_observation true]
    = Ok (acting_agent 3, [[p]]) /\
    path_terminated p = Some true /\
    leading (path_states p) = Some 3%nat.
Proof. eexists. split; [vm_compute; reflexivity | split; reflexivity]. Qed.

(** Without a call of [get_action] the cached means are [None], and
    finalizing fails in [np.concatenate]. *)
Example finalize_without_get_action :
  add_observation (example_agent 3) example_state PyNone example_reward true
  = Raise (ValueError "zero-dimensional arrays cannot be concatenated").
Proof. reflexivity. Qed.

(** An agent of class [PGAgent] itself has no updater. *)
Example get_action_without_updater :
  get_action (PGAgent_init None (example_config 1)) example_policy_output
  = Raise (AttributeError "get_action").
Proof. reflexivity. Qed.

(** ** What a successful [get_path] tells *)

Lemma shape_eqb_eq (s t : list nat) : shape_eqb s t = true -> s = t.
Proof.
  revert t. induction s as [|x s IH]; intros [|y t]; simpl;
    try discriminate; [reflexivity|].
  intros H. apply andb_true_iff in H. destruct H as [Hx Hs].
  apply Nat.eqb_eq in Hx. rewrite Hx, (IH t Hs). reflexivity.
Qed.

Lemma elements_map (xs : list pyobj) :
  List.concat (map data (map asarray xs)) = elements xs.
Proof. unfold elements. rewrite map_map. reflexivity. Qed.

Lemma np_array_inv (xs : list pyobj) (a : ndarray) :
  np_array xs = Ok a ->
  leading a = Some (List.length xs) /\ data a = elements xs.
Proof.
  unfold np_array. rewrite <- elements_map.
  destruct (map asarray xs) as [|a0 rest] eqn:E.
  - intros H; injection H as <-.
    destruct xs; [split; reflexivity | discriminate].
  - destruct (forallb _ rest); [|discriminate].
    intros H; injection H as <-. split; reflexivity.
Qed.

Lemma concatenate_rest_inv (tail : list nat) (xs : list pyobj) :
  forall r : nat * list scalar,
  concatenate_rest tail (map asarray xs) = Ok r ->
  Forall (fun x => shape (asarray x) <> []) xs /\
  fst r = batch_lengths xs /\ snd r = elements xs.
Proof.
  induction xs as [|x xs IH]; intros r; simpl.
  - intros H; injection H as <-. repeat split. constructor.
  - destruct (shape (asarray x)) as [|m tail'] eqn:Hx; [discriminate|].
    destruct (shape_eqb tail' tail); [|discriminate].
    destruct (concatenate_rest tail (map asarray xs)) as [r'|e];
      cbn [bind]; [|discriminate].
    intros H; injection H as <-.
    destruct (IH r' eq_refl) as (Hall & Hn & Hd).
    repeat split.
    + constructor; [congruence | exact Hall].
    + unfold batch_lengths, batch_length; simpl. rewrite Hx.
      fold (batch_lengths xs). simpl. rewrite Hn. reflexivity.
    + simpl. rewrite Hd. reflexivity.
Qed.

Lemma np_concatenate_inv (xs : list pyobj) (a : ndarray) :
  np_concatenate (map asarray xs) = Ok a ->
  xs <> [] /\
  Forall (fun x => shape (asarray x) <> []) xs /\
  leading a = Some (batch_lengths xs) /\
  data a = elements xs.
Proof.
  unfold np_concatenate.
  destruct xs as [|x xs]; [discriminate|].
  cbn [map].
  destruct (shape (asarray x)) as [|m tail] eqn:Hx; [discriminate|].
  destruct (concatenate_rest tail (asarray x :: map asarray xs)) as [r|e] eqn:E;
    cbn [bind]; [|discriminate].
  intros H; injection H as <-.
  destruct (concatenate_rest_inv tail (x :: xs) r E) as (Hall & Hn & Hd).
  repeat split; try assumption.
  - discriminate.
  - unfold leading; simpl. rewrite Hn. reflexivity.
Qed.

Lemma np_concatenate_expand_dims_inv (a b : ndarray) (n : nat) :
  leading a = Some n ->
  np_concatenate (rows (np_expand_dims0 a)) = Ok b ->
  leading b = Some n.
Proof.
  unfold leading. destruct (shape a) as [|m tail] eqn:Ha; [discriminate|].
  intros H; injection H as ->.
  unfold rows, np_expand_dims0; simpl. rewrite Ha.
  unfold np_concatenate; simpl. rewrite shape_eqb_refl. simpl.
  intros H; injection H as <-. simpl. rewrite Nat.add_0_r. reflexivity.
Qed.

Lemma get_path_inv (ep : episode) (p : path) :
  get_path ep = Ok p ->
  exists stacked,
    np_array (states ep) = Ok stacked /\
    np_concatenate (rows (np_expand_dims0 stacked)) = Ok (path_states p) /\
    np_array (actions ep) = Ok (path_actions p) /\
    np_concatenate (map asarray (action_means ep))
      = Ok (path_action_means p) /\
    np_concatenate (map asarray (action_log_stds ep))
      = Ok (path_action_log_stds p) /\
    np_array (rewards ep) = Ok (path_rewards p) /\
    path_terminated p = terminated ep.
Proof.
  unfold get_path.
  destruct (np_array (states ep)) as [a1|e] eqn:E1;
    cbn [bind]; [|discriminate].
  destruct (np_concatenate (rows (np_expand_dims0 a1))) as [a2|e] eqn:E2;
    cbn [bind]; [|discriminate].
  destruct (np_array (actions ep)) as [a3|e] eqn:E3;
    cbn [bind]; [|discriminate].
  destruct (np_concatenate (map asarray (action_means ep))) as [a4|e] eqn:E4;
    cbn [bind]; [|discriminate].
  destruct (np_concatenate (map asarray (action_log_stds ep)))
    as [a5|e] eqn:E5; cbn [bind]; [|discriminate].
  destruct (np_array (rewards ep)) as [a6|e] eqn:E6;
    cbn [bind]; [|discriminate].
  intros H; injection H as <-. exists a1.
  cbn [path_states path_actions path_terminated path_action_means
       path_action_log_stds path_rewards].
  repeat split; assumption.
Qed.

(** The shapes of a path: the arrays of states, actions and rewards have one
    leading entry per recorded value; the arrays of means and log-stddevs
    have as many as the batch axes of the recorded values add up to. *)
Theorem get_path_leading_lengths (ep : episode) (p : path) :
  get_path ep = Ok p ->
  path_terminated p = terminated ep /\
  leading (path_states p) = Some (List.length (states ep)) /\
  leading (path_actions p) = Some (List.length (actions ep)) /\
  leading (path_rewards p) = Some (List.length (rewards ep)) /\
  leading (path_action_means p) = Some (batch_lengths (action_means ep)) /\
  leading (path_action_log_stds p)
    = Some (batch_lengths (action_log_stds ep)).
Proof.
  intros H.
  destruct (get_path_inv ep p H) as (a1 & E1 & E2 & E3 & E4 & E5 & E6 & Ht).
  destruct (np_array_inv _ _ E1) as [L1 _].
  destruct (np_array_inv _ _ E3) as [L3 _].
  destruct (np_array_inv _ _ E6) as [L6 _].
  destruct (np_concatenate_inv _ _ E4) as (_ & _ & L4 & _).
  destruct (np_concatenate_inv _ _ E5) as (_ & _ & L5 & _).
  pose proof (np_concatenate_expand_dims_inv _ _ _ L1 E2) as L2.
  repeat split; assumption.
Qed.

(** [get_path] succeeds only on an episode with at least one step whose
    recorded means and log-stddevs all have a batch axis. *)
Theorem get_path_needs_batch_axis (ep : episode) (p : path) :
  get_path ep = Ok p ->
  action_means ep <> [] /\
  action_log_stds ep <> [] /\
  Forall (fun x => shape (asarray x) <> []) (action_means ep) /\
  Forall (fun x => shape (asarray x) <> []) (action_log_stds ep).
Proof.
  intros H.
  destruct (get_path_inv ep p H) as (a1 & _ & _ & _ & E4 & E5 & _ & _).
  destruct (np_concatenate_inv _ _ E4) as (N4 & A4 & _ & _).
  destruct (np_concatenate_inv _ _ E5) as (N5 & A5 & _ & _).
  repeat split; assumption.
Qed.

Lemma get_path_leading_lengths_witness :
  let p := path_or_empty (get_path double_batch_episode) in
  path_terminated p = Some true /\
  leading (path_states p) = Some 1%nat /\
  leading (path_actions p) = Some 1%nat /\
  leading (path_rewards p) = Some 1%nat /\
  leading (path_action_means p) = Some 2%nat /\
  leading (path_action_log_stds p) = Some 2%nat.
Proof.
  apply (get_path_leading_lengths double_batch_episode
           (path_or_empty (get_path double_batch_episode))).
  reflexivity.
Defined.

Lemma get_path_needs_batch_axis_witness :
  action_means double_batch_episode <> [] /\
  action_log_stds double_batch_episode <> [] /\
  Forall (fun x => shape (asarray x) <> [])
    (action_means double_batch_episode) /\
  Forall (fun x => shape (asarray x) <> [])
    (action_log_stds double_batch_episode).
Proof.
  apply (get_path_needs_batch_axis double_batch_episode
           (path_or_empty (get_path double_batch_episode))).
  reflexivity.
Defined.

(** ** What every run keeps *)

Lemma get_path_steps (ep : episode) (p : path) :
  get_path ep = Ok p ->
  path_steps p = List.length (states ep) /\
  path_terminated p = terminated ep.
Proof.
  intros H.
  destruct (get_path_inv ep p H) as (a1 & E1 & E2 & _ & _ & _ & _ & Ht).
  destruct (np_array_inv _ _ E1) as [L1 _].
  pose proof (np_concatenate_expand_dims_inv _ _ _ L1 E2) as L2.
  unfold path_steps. rewrite L2. split; [reflexivity | exact Ht].
Qed.

Lemma steps_in_snoc (batch : list path) (p : path) :
  steps_in (batch ++ [p]) = (steps_in batch + path_steps p)%nat.
Proof.
  induction batch as [|q batch IH]; simpl; [lia|]. rewrite IH. lia.
Qed.

Lemma aligned_append_step (self : agent) (state reward : pyobj) :
  aligned (current_episode self) ->
  aligned (append_step self state reward).
Proof.
  intros (Lac & Lrw & Lam & Lal). unfold aligned, append_step; simpl.
  rewrite !length_app, Lac, Lrw, Lam, Lal. repeat split.
Qed.

Lemma flushed_consistent (self : agent) :
  buffers_consistent (set_buffers self [] empty_episode 0).
Proof.
  unfold buffers_consistent, aligned; simpl. repeat split. constructor.
Qed.

(** The path that the current call builds from the episode and the new
    step. *)
Lemma finalized_step_path (self : agent) (state reward : pyobj)
    (flag : bool) (p : path) :
  get_path (set_terminated (append_step self state reward) flag) = Ok p ->
  path_steps p = S (episode_steps (current_episode self)) /\
  path_terminated p = Some flag.
Proof.
  intros H. destruct (get_path_steps _ _ H) as [Hs Ht].
  split; [|exact Ht].
  rewrite Hs. unfold set_terminated, append_step, episode_steps; simpl.
  rewrite length_app. simpl. lia.
Qed.

Lemma handed_batch_complete (self : agent) (p : path) :
  buffers_consistent self ->
  path_steps p = S (episode_steps (current_episode self)) ->
  batch_steps self + 1 = batch_size self ->
  batch_complete (batch_size self) (current_batch self ++ [p]).
Proof.
  intros (Hsteps & _ & Hbatch) Hp Heq. unfold batch_complete.
  rewrite steps_in_snoc, removelast_last, Hp. repeat split.
  - lia.
  - destruct (current_batch self); discriminate.
  - apply Forall_app. split.
    + eapply Forall_impl; [|exact Hbatch]. intros q [_ Hq]. exact Hq.
    + constructor; [lia | constructor].
  - eapply Forall_impl; [|exact Hbatch]. intros q [Hq _]. exact Hq.
Qed.

Lemma add_observation_consistent
    (self : agent) (state action reward : pyobj) (terminal : bool)
    (self' : agent) (ups : list (list path)) :
  buffers_consistent self ->
  add_observation self state action reward terminal = Ok (self', ups) ->
  buffers_consistent self' /\ Forall (batch_complete (batch_size self)) ups.
Proof.
  intros Hinv. pose proof Hinv as (Hsteps & Hal & Hbatch).
  unfold add_observation. agent_simpl.
  destruct terminal; agent_simpl.
  - destruct (get_path _) as [p|e] eqn:Hget; agent_simpl; [|discriminate].
    destruct (finalized_step_path _ _ _ _ _ Hget) as [Hp Ht].
    destruct (Z.eqb_spec (batch_steps self + 1) (batch_size self)) as [E|N].
    + agent_simpl. destruct (updater self); [|discriminate].
      intros H; injection H as <- <-. split.
      * apply flushed_consistent.
      * constructor; [|constructor].
        apply handed_batch_complete; assumption.
    + intros H; injection H as <- <-. split; [|constructor].
      unfold buffers_consistent; simpl.
      rewrite steps_in_snoc, Hp. repeat split.
      * unfold episode_steps in *; simpl. lia.
      * apply Forall_app. split; [exact Hbatch|].
        constructor; [split; [exact Ht | lia] | constructor].
  - destruct (Z.eqb_spec (batch_steps self + 1) (batch_size self)) as [E|N].
    + destruct (get_path _) as [p|e] eqn:Hget; agent_simpl; [|discriminate].
      destruct (finalized_step_path _ _ _ _ _ Hget) as [Hp Ht].
      destruct (updater self); [|discriminate].
      intros H; injection H as <- <-. split.
      * apply flushed_consistent.
      * constructor; [|constructor].
        apply handed_batch_complete; assumption.
    + intros H; injection H as <- <-. split; [|constructor].
      unfold buffers_consistent; simpl. repeat split.
      * unfold episode_steps in *; simpl. rewrite length_app. simpl. lia.
      * apply (aligned_append_step self state reward Hal).
      * apply (aligned_append_step self state reward Hal).
      * apply (aligned_append_step self state reward Hal).
      * apply (aligned_append_step self state reward Hal).
      * exact Hbatch.
Qed.

Lemma run_consistent (calls : list call) :
  forall (self self' : agent) (ups : list (list path)),
  buffers_consistent self ->
  run self calls = Ok (self', ups) ->
  batch_size self' = batch_size self /\
  buffers_consistent self' /\
  Forall (batch_complete (batch_size self)) ups.
Proof.
  induction calls as [|c calls IH]; intros self self' ups Hinv; simpl.
  - intros H; injection H as <- <-.
    split; [reflexivity | split; [exact Hinv | constructor]].
  - destruct (do_call self c) as [[s1 u1]|e] eqn:E1; cbn [bind fst snd];
      [|discriminate].
    destruct (run s1 calls) as [[s2 u2]|e] eqn:E2; cbn [bind fst snd];
      [|discriminate].
    intros H; injection H as <- <-.
    assert (H1 : batch_size s1 = batch_size self /\ buffers_consistent s1 /\
                 Forall (batch_complete (batch_size self)) u1).
    { destruct c as [r | state action reward terminal]; simpl in E1.
      - destruct (get_action self r) as [[s0 ret]|e] eqn:E0;
          cbn [bind fst] in E1; [|discriminate].
        injection E1 as <- <-.
        rewrite (get_action_counter _ _ _ _ E0).
        split; [reflexivity | split; [exact Hinv | constructor]].
      - destruct (add_observation_counter _ _ _ _ _ _ _ E1) as [Hsz _].
        destruct (add_observation_consistent _ _ _ _ _ _ _ Hinv E1)
          as [Hc Hu].
        split; [exact Hsz | split; assumption]. }
    destruct H1 as (Hsz1 & Hinv1 & Hu1).
    destruct (IH _ _ _ Hinv1 E2) as (Hsz2 & Hinv2 & Hu2).
    rewrite Hsz1 in Hu2.
    split; [congruence | split; [exact Hinv2 |]].
    apply Forall_app. split; assumption.
Qed.

Lemma fresh_agent_consistent
    (value_function_ref : option (Config -> Updater)) (cfg : Config) :
  buffers_consistent (PGAgent_init value_function_ref cfg).
Proof.
  unfold buffers_consistent, aligned; simpl. repeat split. constructor.
Qed.

(** Every batch that a run hands to the updater holds exactly [batch_size]
    steps, in at least one path, and every path in it has at least one
    step. *)
Theorem update_batches_hold_batch_size_steps
    (value_function_ref : option (Config -> Updater)) (cfg : Config)
    (calls : list call) (self : agent) (ups : list (list path)) :
  run (PGAgent_init value_function_ref cfg) calls = Ok (self, ups) ->
  Forall (fun batch =>
            Z.of_nat (steps_in batch) = config_batch_size cfg /\
            batch <> [] /\
            Forall (fun p => (1 <= path_steps p)%nat) batch) ups.
Proof.
  intros Hrun.
  destruct (run_consistent calls _ _ _
              (fresh_agent_consistent value_function_ref cfg) Hrun)
    as (_ & _ & Hups).
  eapply Forall_impl; [|exact Hups].
  intros batch (H1 & H2 & H3 & _). repeat split; assumption.
Qed.

Lemma update_batches_hold_batch_size_steps_witness :
  Forall (fun batch =>
            Z.of_nat (steps_in batch) = 3 /\
            batch <> [] /\
            Forall (fun p => (1 <= path_steps p)%nat) batch)
    (updates_during (example_agent 3) four_steps).
Proof.
  apply (update_batches_hold_batch_size_steps (Some example_updater)
           (example_config 3) four_steps
           (agent_after (example_agent 3) four_steps)
           (updates_during (example_agent 3) four_steps)).
  vm_compute. reflexivity.
Defined.

(** In a batch handed to the updater only the last path can be an
    unfinished episode, and the paths waiting in the batch buffer are all
    finished episodes. *)
Theorem only_last_path_unterminated
    (value_function_ref : option (Config -> Updater)) (cfg : Config)
    (calls : list call) (self : agent) (ups : list (list path)) :
  run (PGAgent_init value_function_ref cfg) calls = Ok (self, ups) ->
  Forall (fun batch =>
            Forall (fun p => path_terminated p = Some true)
              (removelast batch)) ups /\
  Forall (fun p => path_terminated p = Some true) (current_batch self).
Proof.
  intros Hrun.
  destruct (run_consistent calls _ _ _
              (fresh_agent_consistent value_function_ref cfg) Hrun)
    as (_ & (_ & _ & Hbatch) & Hups).
  split.
  - eapply Forall_impl; [|exact Hups].
    intros batch (_ & _ & _ & H). exact H.
  - eapply Forall_impl; [|exact Hbatch]. intros p [H _]. exact H.
Qed.

Lemma only_last_path_unterminated_witness :
  Forall (fun batch =>
            Forall (fun p => path_terminated p = Some true)
              (removelast batch))
    (updates_during (example_agent 3) four_steps) /\
  Forall (fun p => path_terminated p = Some true)
    (current_batch (agent_after (example_agent 3) four_steps)).
Proof.
  apply (only_last_path_unterminated (Some example_updater)
           (example_config 3) four_steps
           (agent_after (example_agent 3) four_steps)
           (updates_during (example_agent 3) four_steps)).
  vm_compute. reflexivity.
Defined.

(** The counter is the number of steps held in the two buffers, and the
    lists of the episode buffer have one entry per step. *)
Theorem counter_accounts_for_buffers
    (value_function_ref : option (Config -> Updater)) (cfg : Config)
    (calls : list call) (self : agent) (ups : list (list path)) :
  run (PGAgent_init value_function_ref cfg) calls = Ok (self, ups) ->
  batch_steps self
  = Z.of_nat (steps_in (current_batch self)
              + episode_steps (current_episode self)) /\
  aligned (current_episode self).
Proof.
  intros Hrun.
  destruct (run_consistent calls _ _ _
              (fresh_agent_consistent value_function_ref cfg) Hrun)
    as (_ & (Hsteps & Hal & _) & _).
  split; assumption.
Qed.

Lemma counter_accounts_for_buffers_witness :
  let self := agent_after (example_agent 3) two_episodes in
  batch_steps self
  = Z.of_nat (steps_in (current_batch self)
              + episode_steps (current_episode self)) /\
  aligned (current_episode self).
Proof.
  apply (counter_accounts_for_buffers (Some example_updater)
           (example_config 3) two_episodes
           (agent_after (example_agent 3) two_episodes)
           (updates_during (example_agent 3) two_episodes)).
  vm_compute. reflexivity.
Defined.

(** ** Counting observations and updates *)

Lemma do_call_count (self : agent) (c : call)
    (self' : agent) (ups : list (list path)) :
  do_call self c = Ok (self', ups) ->
  batch_size self' = batch_size self /\
  ((batch_steps self + 1 = batch_size self /\ is_observation c /\
    batch_steps self' = 0 /\ List.length ups = 1%nat) \/
   (batch_steps self + 1 <> batch_size self /\ is_observation c /\
    batch_steps self' = batch_steps self + 1 /\ ups = []) \/
   (~ is_observation c /\ batch_steps self' = batch_steps self /\ ups = [])).
Proof.
  destruct c as [r | state action reward terminal]; simpl.
  - destruct (get_action self r) as [[s0 ret]|e] eqn:E0;
      cbn [bind fst]; [|discriminate].
    intros H; injection H as <- <-.
    rewrite (get_action_counter _ _ _ _ E0). simpl.
    split; [reflexivity | right; right; auto].
  - intros H.
    destruct (add_observation_counter _ _ _ _ _ _ _ H)
      as [Hsz [(E & Hz & Hl) | (N & Hs & Hu)]];
      (split; [exact Hsz|]); [left | right; left]; auto.
Qed.

Lemma run_count (calls : list call) :
  forall (self self' : agent) (ups : list (list path)),
  0 <= batch_steps self < batch_size self ->
  run self calls = Ok (self', ups) ->
  Z.of_nat (count_observations calls) + batch_steps self
  = batch_size self * Z.of_nat (List.length ups) + batch_steps self' /\
  0 <= batch_steps self' < batch_size self.
Proof.
  induction calls as [|c calls IH]; intros self self' ups Hinv; simpl.
  - intros H; injection H as <- <-. simpl. split; lia.
  - destruct (do_call self c) as [[s1 u1]|e] eqn:E1; cbn [bind fst snd];
      [|discriminate].
    destruct (run s1 calls) as [[s2 u2]|e] eqn:E2; cbn [bind fst snd];
      [|discriminate].
    intros H; injection H as <- <-.
    destruct (do_call_count _ _ _ _ E1) as [Hsz Hcases].
    assert (Hinv1 : 0 <= batch_steps s1 < batch_size s1).
    { rewrite Hsz.
      destruct Hcases as [(E & _ & Hz & _) | [(N & _ & Hs & _) | (_ & Hs & _)]];
        lia. }
    destruct (IH _ _ _ Hinv1 E2) as [Hcount Hinv2].
    rewrite Hsz in Hcount, Hinv2. rewrite length_app, Nat2Z.inj_add.
    split; [|exact Hinv2].
    destruct Hcases as [(E & Hobs & Hz & Hl) | [(N & Hobs & Hs & Hu)
                                               | (Hobs & Hs & Hu)]];
      destruct c; simpl in Hobs; try contradiction; try (exfalso; apply Hobs; exact I);
      subst; cbn [count_observations List.length]; try rewrite Hl;
      try rewrite Nat2Z.inj_succ; nia.
Qed.

(** With [batch_size >= 1], after a run on a fresh agent the counter is the
    number of observations modulo [batch_size], and the updater has been
    called once for every full [batch_size] observations. *)
Theorem counter_and_updates_by_division
    (value_function_ref : option (Config -> Updater)) (cfg : Config)
    (calls : list call) (self : agent) (ups : list (list path)) :
  1 <= config_batch_size cfg ->
  run (PGAgent_init value_function_ref cfg) calls = Ok (self, ups) ->
  batch_steps self
  = Z.of_nat (count_observations calls) mod config_batch_size cfg /\
  Z.of_nat (List.length ups)
  = Z.of_nat (count_observations calls) / config_batch_size cfg.
Proof.
  intros Hsize Hrun.
  assert (Hinit : 0 <= batch_steps (PGAgent_init value_function_ref cfg)
                  < batch_size (PGAgent_init value_function_ref cfg))
    by (simpl; lia).
  destruct (run_count calls _ _ _ Hinit Hrun) as [Hcount Hinv].
  simpl in Hcount, Hinv. rewrite Z.add_0_r in Hcount.
  split.
  - apply (Z.mod_unique_pos _ _ (Z.of_nat (List.length ups))); assumption.
  - apply (Z.div_unique_pos _ _ _ (batch_steps self)); assumption.
Qed.

Lemma counter_and_updates_by_division_witness :
  batch_steps (agent_after (example_agent 3) four_steps)
  = Z.of_nat (count_observations four_steps) mod 3 /\
  Z.of_nat (List.length (updates_during (example_agent 3) four_steps))
  = Z.of_nat (count_observations four_steps) / 3.
Proof.
  apply (counter_and_updates_by_division (Some example_updater)
           (example_config 3) four_steps
           (agent_after (example_agent 3) four_steps)
           (updates_during (example_agent 3) four_steps)).
  - simpl. lia.
  - vm_compute. reflexivity.
Defined.

Lemma run_without_threshold (calls : list call) :
  forall (self self' : agent) (ups : list (list path)),
  batch_size self <= 0 ->
  0 <= batch_steps self ->
  run self calls = Ok (self', ups) ->
  ups = [] /\
  batch_steps self' = batch_steps self + Z.of_nat (count_observations calls).
Proof.
  induction calls as [|c calls IH]; intros self self' ups Hsize Hpos; simpl.
  - intros H; injection H as <- <-. split; [reflexivity | lia].
  - destruct (do_call self c) as [[s1 u1]|e] eqn:E1; cbn [bind fst snd];
      [|discriminate].
    destruct (run s1 calls) as [[s2 u2]|e] eqn:E2; cbn [bind fst snd];
      [|discriminate].
    intros H; injection H as <- <-.
    destruct (do_call_count _ _ _ _ E1) as [Hsz Hcases].
    destruct Hcases as [(E & _) | [(N & Hobs & Hs & Hu) | (Hobs & Hs & Hu)]];
      [lia | |].
    + destruct (IH s1 s2 u2) as [Hu2 Hs2]; [lia | lia | exact E2 |].
      subst. destruct c; simpl in Hobs; [contradiction|].
      split; [reflexivity | lia].
    + destruct (IH s1 s2 u2) as [Hu2 Hs2]; [lia | lia | exact E2 |].
      subst. destruct c; simpl in Hobs; [|exfalso; apply Hobs; exact I].
      split; [reflexivity | lia].
Qed.

(** With a batch size of 0 or less the updater is never called: the
    counter only counts the observations. *)
Theorem nonpositive_batch_size_never_updates
    (value_function_ref : option (Config -> Updater)) (cfg : Config)
    (calls : list call) (self : agent) (ups : list (list path)) :
  config_batch_size cfg <= 0 ->
  run (PGAgent_init value_function_ref cfg) calls = Ok (self, ups) ->
  ups = [] /\ batch_steps self = Z.of_nat (count_observations calls).
Proof.
  intros Hsize Hrun.
  destruct (run_without_threshold calls
              (PGAgent_init value_function_ref cfg) self ups
              Hsize (Z.le_refl 0) Hrun) as [Hu Hs].
  split; [exact Hu | exact Hs].
Qed.

Lemma nonpositive_batch_size_never_updates_witness :
  updates_during (example_agent 0) three_steps = [] /\
  batch_steps (agent_after (example_agent 0) three_steps)
  = Z.of_nat (count_observations three_steps).
Proof.
  apply (nonpositive_batch_size_never_updates (Some example_updater)
           (example_config 0) three_steps
           (agent_after (example_agent 0) three_steps)
           (updates_during (example_agent 0) three_steps)).
  - simpl. lia.
  - vm_compute. reflexivity.
Defined.

(** ** Runs that return *)

Lemma add_observation_returns (sh : step_shapes) (self : agent)
    (state action reward : pyobj) (terminal : bool) :
  updater self <> None ->
  episode_wf sh (current_episode self) ->
  step_wf sh self state reward ->
  exists self' ups,
    add_observation self state action reward terminal = Ok (self', ups) /\
    updater self' = updater self /\
    continuous self' = continuous self /\
    last_action self' = last_action self /\
    last_action_means self' = last_action_means self /\
    last_action_log_stds self' = last_action_log_stds self /\
    episode_wf sh (current_episode self').
Proof.
  intros Hupd Hep Hstep.
  destruct (finalize_step sh self state reward terminal Hep Hstep)
    as (p & Hget & _).
  pose proof (append_step_wf sh self state reward Hep Hstep) as Hwf.
  unfold add_observation. agent_simpl.
  destruct terminal; agent_simpl.
  - rewrite Hget. agent_simpl.
    destruct (Z.eqb_spec (batch_steps self + 1) (batch_size self)) as [E|N].
    + agent_simpl. destruct (updater self) eqn:Hu; [|congruence].
      do 2 eexists. split; [reflexivity|]. simpl.
      repeat split; try assumption; apply empty_episode_wf.
    + do 2 eexists. split; [reflexivity|]. simpl.
      repeat split; apply empty_episode_wf.
  - destruct (Z.eqb_spec (batch_steps self + 1) (batch_size self)) as [E|N].
    + rewrite Hget. agent_simpl.
      destruct (updater self) eqn:Hu; [|congruence].
      do 2 eexists. split; [reflexivity|]. simpl.
      repeat split; try assumption; apply empty_episode_wf.
    + do 2 eexists. split; [reflexivity|]. simpl.
      repeat split; apply Hwf.
Qed.

Lemma run_returns (sh : step_shapes) (calls : list call) :
  forall self : agent,
  updater self <> None ->
  episode_wf sh (current_episode self) ->
  calls_wf sh (continuous self) (last_action self) (last_action_means self)
    (last_action_log_stds self) calls ->
  exists self' ups, run self calls = Ok (self', ups).
Proof.
  induction calls as [|c calls IH]; intros self Hupd Hep Hwf.
  - do 2 eexists. reflexivity.
  - destruct c as [[act outs] | state action reward terminal].
    + simpl in Hwf. destruct Hwf as [Hret Hwf].
      destruct (get_action_returns self (act, outs) Hupd Hret) as [ret Hget].
      simpl in Hget.
      destruct (IH (set_cache self act (out_action_means outs)
                      (out_action_log_stds outs)) Hupd Hep Hwf)
        as (self' & ups & Hrun).
      exists self', ([] ++ ups). simpl. rewrite Hget. cbn [bind fst snd].
      rewrite Hrun. reflexivity.
    + simpl in Hwf. destruct Hwf as [Hobs Hwf].
      destruct (add_observation_returns sh self state action reward terminal
                  Hupd Hep Hobs)
        as (s1 & u1 & Hadd & Hu & Hc & Ha & Hm & Hl & Hep1).
      destruct (IH s1) as (self' & ups & Hrun).
      * rewrite Hu. exact Hupd.
      * exact Hep1.
      * rewrite Hc, Ha, Hm, Hl. exact Hwf.
      * exists self', (u1 ++ ups). simpl. rewrite Hadd. cbn [bind fst snd].
        rewrite Hrun. reflexivity.
Qed.

(** On an agent with an updater, a sequence of calls returns whenever every
    [get_action] can return and every observation, terminal or not, fits
    the shapes of the episode with the action cached before it. *)
Theorem well_shaped_run_returns
    (sh : step_shapes) (make : Config -> Updater) (cfg : Config)
    (calls : list call) :
  calls_wf sh (config_continuous cfg) PyNone PyNone PyNone calls ->
  exists self ups, run (PGAgent_init (Some make) cfg) calls = Ok (self, ups).
Proof.
  intros Hwf.
  apply (run_returns sh calls (PGAgent_init (Some make) cfg)).
  - discriminate.
  - apply empty_episode_wf.
  - exact Hwf.
Qed.

Lemma well_shaped_run_returns_witness :
  exists self ups, run (example_agent 3) four_steps = Ok (self, ups).
Proof.
  apply (well_shaped_run_returns example_shapes example_updater
           (example_config 3) four_steps).
  simpl. repeat split; auto.
Defined.

(** ** Observations without [get_action] *)

Lemma get_path_none_means (ep : episode) (p : path) :
  In PyNone (action_means ep) -> get_path ep <> Ok p.
Proof.
  intros Hin H.
  destruct (get_path_inv ep p H) as (a1 & _ & _ & _ & E4 & _).
  destruct (np_concatenate_inv _ _ E4) as (_ & Hall & _).
  rewrite Forall_forall in Hall. apply (Hall PyNone Hin). reflexivity.
Qed.

Lemma add_observation_uncached
    (self : agent) (state action reward : pyobj) (terminal : bool)
    (self' : agent) (ups : list (list path)) :
  last_action_means self = PyNone ->
  add_observation self state action reward terminal = Ok (self', ups) ->
  terminal = false /\ ups = [] /\
  current_batch self' = current_batch self /\
  last_action_means self' = PyNone.
Proof.
  intros Hnone.
  assert (Hfail : forall flag p,
            get_path (set_terminated (append_step self state reward) flag)
            <> Ok p).
  { intros flag p. apply get_path_none_means.
    unfold set_terminated, append_step; simpl. rewrite Hnone.
    apply in_or_app. right. left. reflexivity. }
  unfold add_observation. agent_simpl.
  destruct terminal; agent_simpl.
  - destruct (get_path _) as [p|e] eqn:Hget; agent_simpl; [|discriminate].
    exfalso. exact (Hfail true p Hget).
  - destruct (Z.eqb_spec (batch_steps self + 1) (batch_size self)) as [E|N].
    + destruct (get_path _) as [p|e] eqn:Hget; agent_simpl; [|discriminate].
      exfalso. exact (Hfail false p Hget).
    + intros H; injection H as <- <-. simpl. auto.
Qed.

Lemma run_uncached (calls : list call) :
  forall (self self' : agent) (ups : list (list path)),
  last_action_means self = PyNone ->
  Forall is_observation calls ->
  run self calls = Ok (self', ups) ->
  ups = [] /\ current_batch self' = current_batch self /\
  Forall (fun c => exists state action reward,
                     c = AddObservation state action reward false) calls.
Proof.
  induction calls as [|c calls IH]; intros self self' ups Hnone Hobs; simpl.
  - intros H; injection H as <- <-. repeat split. constructor.
  - inversion Hobs as [|? ? Hc Hrest]; subst.
    destruct c as [r | state action reward terminal]; [contradiction|].
    cbn [do_call].
    destruct (add_observation self state action reward terminal)
      as [[s1 u1]|e] eqn:E1; cbn [bind fst snd]; [|discriminate].
    destruct (run s1 calls) as [[s2 u2]|e] eqn:E2; cbn [bind fst snd];
      [|discriminate].
    intros H; injection H as <- <-.
    destruct (add_observation_uncached _ _ _ _ _ _ _ Hnone E1)
      as (-> & -> & Hb1 & Hn1).
    destruct (IH _ _ _ Hn1 Hrest E2) as (-> & Hb2 & Hall).
    repeat split; [congruence|].
    constructor; [|exact Hall]. do 3 eexists. reflexivity.
Qed.

(** On a fresh agent, observations without any [get_action] never yield a
    path: such a run returns only if none of the observations is terminal,
    and then nothing was handed to the updater and the batch buffer is
    empty. *)
Theorem observations_without_get_action
    (value_function_ref : option (Config -> Updater)) (cfg : Config)
    (calls : list call) (self : agent) (ups : list (list path)) :
  Forall is_observation calls ->
  run (PGAgent_init value_function_ref cfg) calls = Ok (self, ups) ->
  ups = [] /\ current_batch self = [] /\
  Forall (fun c => exists state action reward,
                     c = AddObservation state action reward false) calls.
Proof.
  intros Hobs Hrun.
  apply (run_uncached calls (PGAgent_init value_function_ref cfg) self ups);
    [reflexivity | exact Hobs | exact Hrun].
Qed.

Lemma observations_without_get_action_witness :
  updates_during (example_agent 3)
    [example_observation false; example_observation false] = [] /\
  current_batch
    (agent_after (example_agent 3)
       [example_observation false; example_observation false]) = [] /\
  Forall (fun c => exists state action reward,
                     c = AddObservation state action reward false)
    [example_observation false; example_observation false].
Proof.
  apply (observations_without_get_action (Some example_updater)
           (example_config 3)
           [example_observation false; example_observation false]
           (agent_after (example_agent 3)
              [example_observation false; example_observation false])
           (updates_during (example_agent 3)
              [example_observation false; example_observation false])).
  - repeat constructor.
  - vm_compute. reflexivity.
Defined.

(** ** The cached action *)

(** [add_observation] records the cached action: the action argument of
    the observations has no influence on a run. *)
Theorem run_ignores_action_argument
    (self : agent) (a : pyobj) (calls : list call) :
  run self (map (with_action a) calls) = run self calls.
Proof.
  revert self. induction calls as [|c calls IH]; intros self; simpl.
  - reflexivity.
  - assert (Hcall : do_call self (with_action a c) = do_call self c)
      by (destruct c; reflexivity).
    rewrite Hcall. destruct (do_call self c) as [[s1 u1]|e]; simpl;
      [|reflexivity].
    rewrite IH. reflexivity.
Qed.

(** After two calls of [get_action], an observation that does not end the
    episode or fill the batch records what the second call obtained from
    the updater. *)
Theorem observation_records_latest_get_action
    (self s1 s2 s3 : agent) (r1 r2 : pyobj * outputs) (ret1 ret2 : pyobj)
    (state action reward : pyobj) (ups : list (list path)) :
  get_action self r1 = Ok (s1, ret1) ->
  get_action s1 r2 = Ok (s2, ret2) ->
  batch_steps self + 1 <> batch_size self ->
  add_observation s2 state action reward false = Ok (s3, ups) ->
  states (current_episode s3) = states (current_episode self) ++ [state] /\
  actions (current_episode s3) = actions (current_episode self) ++ [fst r2] /\
  rewards (current_episode s3) = rewards (current_episode self) ++ [reward] /\
  action_means (current_episode s3)
    = action_means (current_episode self) ++ [out_action_means (snd r2)] /\
  action_log_stds (current_episode s3)
    = action_log_stds (current_episode self)
      ++ [out_action_log_stds (snd r2)].
Proof.
  intros H1 H2 Hneq.
  rewrite (get_action_counter _ _ _ _ H2), (get_action_counter _ _ _ _ H1).
  unfold add_observation. agent_simpl. cbn [set_cache batch_steps batch_size].
  destruct (Z.eqb_spec (batch_steps self + 1) (batch_size self)) as [E|_];
    [contradiction|].
  intros H; injection H as <- _. simpl. repeat split.
Qed.

Lemma observation_records_latest_get_action_witness :
  let s3 := agent_after (example_agent 3)
              [example_get_action; example_get_action;
               example_observation false] in
  states (current_episode s3) = [] ++ [example_state] /\
  actions (current_episode s3) = [] ++ [fst example_policy_output] /\
  rewards (current_episode s3) = [] ++ [example_reward] /\
  action_means (current_episode s3)
    = [] ++ [out_action_means (snd example_policy_output)] /\
  action_log_stds (current_episode s3)
    = [] ++ [out_action_log_stds (snd example_policy_output)].
Proof.
  apply (observation_records_latest_get_action (example_agent 3)
           (acting_agent 3) (acting_agent 3)
           (agent_after (example_agent 3)
              [example_get_action; example_get_action;
               example_observation false])
           example_policy_output example_policy_output
           (fst example_policy_output) (fst example_policy_output)
           example_state PyNone example_reward []).
  - reflexivity.
  - reflexivity.
  - simpl. lia.
  - vm_compute. reflexivity.
Defined.

End PGAgentTheory.
